(** * Media detection and Discord presence synchronisation

    A shallow embedding of [discord_presence.py]: the title parsers, the three
    collectors, the fusion cascade and the presence state machine of
    [detect_media], the tiered push of [update_presence], the connection
    made at the start, the loop of [main] and the cleanup, followed by
    their properties.

    Conventions of the embedding.
    - A Python [str] is the [string] of the bytes of its UTF-8 encoding.
      Equality, [startswith], [in] and [replace] on these bytes agree with
      Python on every string.  Case folding, [\s], [\d], [strip], [len]
      and slicing are those of ASCII: they agree with Python on the
      strings that hold ASCII characters only ([PyStr.is_ascii]), and a
      property that needs more of them than that is stated for such
      strings.
    - The operating system is a snapshot ([World]) that every call of one
      poll cycle reads: the process table gives a name and a command line
      for every process (empty when [psutil] could not read them) and
      every window handle has a title.  The reads made inside a [try]
      return what the snapshot holds.  The reads made outside any [try]
      can raise; what they raise in a given poll is given apart from the
      snapshot ([Faults]): those of [check_native_apps], and [proc.name()]
      in the scan that opens [check_browser_tabs].
    - A dict of the program is a record; a key read through [.get] is an
      optional field.
    - The Discord client ([pypresence.Presence]) and the TMDB search are
      oracles.  Every call made to the client is recorded in a trace, with
      the pauses, the collectors consulted and the image lookups.
    - Logging is left out. *)

From Stdlib Require Import Bool Arith ZArith List Lia.
From Stdlib Require Import Ascii String DecimalString.
Import ListNotations.

Local Open Scope string_scope.
Local Open Scope bool_scope.

(** ** Python strings *)

Module PyStr.

Definition is_upper (c : ascii) : bool :=
  let n := nat_of_ascii c in ((65 <=? n) && (n <=? 90))%nat.

Definition lower_char (c : ascii) : ascii :=
  if is_upper c then ascii_of_nat (nat_of_ascii c + 32) else c.

(** [s.lower()], on the ASCII letters. *)
Fixpoint lower (s : string) : string :=
  match s with
  | EmptyString => EmptyString
  | String c s' => String (lower_char c) (lower s')
  end.

(** [c.isspace()] on ASCII: TAB..CR, FS..US and the space. *)
Definition is_space (c : ascii) : bool :=
  let n := nat_of_ascii c in
  (((9 <=? n) && (n <=? 13)) || ((28 <=? n) && (n <=? 32)))%nat.

Definition is_digit (c : ascii) : bool :=
  let n := nat_of_ascii c in ((48 <=? n) && (n <=? 57))%nat.

(** [s.isascii()]: the strings on which the byte and the character
    coincide. *)
Definition is_ascii_char (c : ascii) : bool := (nat_of_ascii c <? 128)%nat.

Fixpoint is_ascii (s : string) : bool :=
  match s with
  | EmptyString => true
  | String c s' => is_ascii_char c && is_ascii s'
  end.

(** [s.startswith(p)] *)
Definition startswith (s p : string) : bool := String.prefix p s.

(** [sub in s] *)
Fixpoint contains (sub s : string) : bool :=
  String.prefix sub s ||
  match s with
  | EmptyString => false
  | String _ s' => contains sub s'
  end.

(** [s[n:]] *)
Fixpoint drop (n : nat) (s : string) : string :=
  match n, s with
  | O, _ => s
  | S _, EmptyString => EmptyString
  | S n', String _ s' => drop n' s'
  end.

(** [s[:n]] *)
Fixpoint take (n : nat) (s : string) : string :=
  match n, s with
  | O, _ => EmptyString
  | S _, EmptyString => EmptyString
  | S n', String c s' => String c (take n' s')
  end.

(** [s.replace(old, new)] for a non-empty [old]: left to right, without
    overlap.  The fuel is the length of [s]; each step consumes a
    character. *)
Fixpoint replace_fuel (fuel : nat) (old new s : string) : string :=
  match fuel with
  | O => s
  | S fuel' =>
      match s with
      | EmptyString => EmptyString
      | String c s' =>
          if String.prefix old s
          then new ++ replace_fuel fuel' old new (drop (String.length old) s)
          else String c (replace_fuel fuel' old new s')
      end
  end.

Definition replace (s old new : string) : string :=
  replace_fuel (String.length s) old new s.

Fixpoint rev_onto (s acc : string) : string :=
  match s with
  | EmptyString => acc
  | String c s' => rev_onto s' (String c acc)
  end.

Definition rev (s : string) : string := rev_onto s EmptyString.

Fixpoint lstrip_by (p : ascii -> bool) (s : string) : string :=
  match s with
  | EmptyString => EmptyString
  | String c s' => if p c then lstrip_by p s' else s
  end.

Definition strip_by (p : ascii -> bool) (s : string) : string :=
  rev (lstrip_by p (rev (lstrip_by p s))).

(** [s.strip()], of the ASCII white space. *)
Definition strip (s : string) : string := strip_by is_space s.

Fixpoint mem_char (c : ascii) (chars : string) : bool :=
  match chars with
  | EmptyString => false
  | String d chars' => Ascii.eqb c d || mem_char c chars'
  end.

(** [s.strip(chars)], byte by byte.  In an ASCII [s] the bytes of a
    character of [chars] that is not ASCII meet nothing; in another [s]
    they can meet the bytes of another character. *)
Definition strip_chars (s chars : string) : string :=
  strip_by (fun c => mem_char c chars) s.

(** [int(s)] on a run of ASCII digits. *)
Fixpoint int_acc (s : string) (acc : Z) : Z :=
  match s with
  | EmptyString => acc
  | String c s' => int_acc s' (10 * acc + Z.of_nat (nat_of_ascii c - 48))%Z
  end.

Definition int (s : string) : Z := int_acc s 0%Z.

(** [str(n)] *)
Definition of_int (n : Z) : string := NilZero.string_of_int (Z.to_int n).

(** [sep.join(parts)] *)
Fixpoint join (sep : string) (parts : list string) : string :=
  match parts with
  | [] => EmptyString
  | [p] => p
  | p :: ps => p ++ sep ++ join sep ps
  end.

(** The truth value of a [str]: empty is false. *)
Definition truthy (s : string) : bool := negb (String.eqb s EmptyString).

End PyStr.

(** ** Regular expressions

    The patterns of the program use literals, the classes [\s], [\d] and [.],
    greedy and lazy repetition, optional groups, captures and the anchors
    [^] and [$].  The matcher is the backtracking one of Python's [re]:
    alternatives are tried in priority order and the first complete match
    wins. *)

Module Re.

Inductive regex : Type :=
| Eps
| Lit (c : ascii)
| Cls (p : ascii -> bool)
| Cat (r1 r2 : regex)
| Star (greedy : bool) (r : regex)
| Opt (r : regex)
| Grp (n : nat) (r : regex)
| Bol
| Eol.

Definition captures := list (nat * string).

Definition set_group (n : nat) (v : string) (c : captures) : captures :=
  (n, v) :: c.

(** [m.group(n)]: [None] when the group took no part in the match. *)
Fixpoint group (n : nat) (c : captures) : option string :=
  match c with
  | [] => None
  | (k, v) :: c' => if Nat.eqb k n then Some v else group n c'
  end.

(** A continuation gets the position reached, the rest of the subject and
    the captures so far; it answers with the end of the whole match. *)
Definition kont := nat -> string -> captures -> option (nat * captures).

Definition or_else {A} (x : option A) (y : unit -> option A) : option A :=
  match x with
  | Some _ => x
  | None => y tt
  end.

Definition char_eq (icase : bool) (c d : ascii) : bool :=
  if icase then Ascii.eqb (PyStr.lower_char c) (PyStr.lower_char d)
  else Ascii.eqb c d.

Fixpoint run (icase : bool) (r : regex)
         (pos : nat) (s : string) (c : captures) (k : kont)
  : option (nat * captures) :=
  match r with
  | Eps => k pos s c
  | Lit ch =>
      match s with
      | String d s' => if char_eq icase ch d then k (S pos) s' c else None
      | EmptyString => None
      end
  | Cls p =>
      match s with
      | String d s' => if p d then k (S pos) s' c else None
      | EmptyString => None
      end
  | Cat r1 r2 =>
      run icase r1 pos s c (fun pos' s' c' => run icase r2 pos' s' c' k)
  | Star greedy r1 =>
      (fix loop (fuel : nat) (pos : nat) (s : string) (c : captures)
         {struct fuel} : option (nat * captures) :=
         match fuel with
         | O => k pos s c
         | S fuel' =>
             let again (_ : unit) :=
               run icase r1 pos s c
                   (fun pos' s' c' =>
                      if Nat.eqb pos' pos then None
                      else loop fuel' pos' s' c') in
             let stop (_ : unit) := k pos s c in
             if greedy then or_else (again tt) stop
             else or_else (stop tt) again
         end) (String.length s) pos s c
  | Opt r1 =>
      or_else (run icase r1 pos s c k) (fun _ => k pos s c)
  | Grp n r1 =>
      run icase r1 pos s c
          (fun pos' s' c' => k pos' s' (set_group n (PyStr.take (pos' - pos) s) c'))
  | Bol => if Nat.eqb pos 0 then k pos s c else None
  | Eol =>
      match s with
      | EmptyString => k pos s c
      | String d EmptyString =>
          if Ascii.eqb d "010"%char then k pos s c else None
      | _ => None
      end
  end.

Definition accept : kont := fun pos _ c => Some (pos, c).

(** [re.match(r, s)]: anchored at the start, free at the end. *)
Definition rmatch (r : regex) (s : string) : option captures :=
  match run false r 0 s [] accept with
  | Some (_, c) => Some c
  | None => None
  end.

Definition rmatch_icase (r : regex) (s : string) : option captures :=
  match run true r 0 s [] accept with
  | Some (_, c) => Some c
  | None => None
  end.

(** [re.search(r, s)]: the leftmost start that matches. *)
Fixpoint search_from (r : regex) (pos : nat) (s : string) : option captures :=
  match run false r pos s [] accept with
  | Some (_, c) => Some c
  | None =>
      match s with
      | EmptyString => None
      | String _ s' => search_from r (S pos) s'
      end
  end.

Definition search (r : regex) (s : string) : option captures :=
  search_from r 0 s.

(** [re.sub(r, repl, s)] for a constant [repl]: leftmost matches, without
    overlap.  None of the program's substitution patterns matches the
    empty string; an empty match here copies one character and goes on. *)
Fixpoint sub_from (fuel : nat) (r : regex) (repl : string)
         (pos : nat) (s : string) : string :=
  match fuel with
  | O => s
  | S fuel' =>
      match run false r pos s [] accept with
      | Some (e, _) =>
          if Nat.eqb e pos then
            match s with
            | EmptyString => repl
            | String ch s' => repl ++ String ch (sub_from fuel' r repl (S pos) s')
            end
          else repl ++ sub_from fuel' r repl e (PyStr.drop (e - pos) s)
      | None =>
          match s with
          | EmptyString => EmptyString
          | String ch s' => String ch (sub_from fuel' r repl (S pos) s')
          end
      end
  end.

Definition sub (r : regex) (repl s : string) : string :=
  sub_from (S (String.length s)) r repl 0 s.

(** Pattern syntax. *)
Fixpoint lits (s : string) : regex :=
  match s with
  | EmptyString => Eps
  | String c EmptyString => Lit c
  | String c s' => Cat (Lit c) (lits s')
  end.

Definition plus (greedy : bool) (r : regex) : regex := Cat r (Star greedy r).

(** [.] matches everything but a line feed. *)
Definition dot : regex := Cls (fun c => negb (Ascii.eqb c "010"%char)).
Definition space : regex := Cls PyStr.is_space.
Definition digit : regex := Cls PyStr.is_digit.

Declare Scope re_scope.
Delimit Scope re_scope with re.
Bind Scope re_scope with regex.
Infix "++" := Cat (right associativity, at level 60) : re_scope.

End Re.

Import Re.

(** ** Media records

    The program builds its records as dicts.  Every dict it builds with
    ["isWatching": True] has the keys [title], [service] and [type]; the other
    keys are optional and read through [.get], so an absent key and a key
    bound to [None] are the same.  [{"isWatching": False}] is [NotWatching]. *)

Record Media : Type := mkMedia {
  title : string;
  service : string;
  media_type : string;
  season : option Z;
  episode : option Z;
  episodeTitle : option string;
  detected_by_system : bool
}.

Inductive Detection : Type :=
| NotWatching
| Watching (m : Media).

(** What a parser returns: the record before the caller adds [isWatching],
    [service] and the rest. *)
Record Parsed : Type := mkParsed {
  p_title : string;
  p_type : string;
  p_season : option Z;
  p_episode : option Z;
  p_episodeTitle : option string
}.

Definition group_or_empty (n : nat) (c : captures) : string :=
  match group n c with
  | Some v => v
  | None => EmptyString
  end.

(** [m.group(n).strip() if m.group(n) else None] *)
Definition stripped_group (n : nat) (c : captures) : option string :=
  match group n c with
  | Some v => if PyStr.truthy v then Some (PyStr.strip v) else None
  | None => None
  end.

(** [r"(.*?):\s+S(\d+):E(\d+)(?:\s+(.+))?"] *)
Definition netflix_show_pattern : regex :=
  (Grp 1 (Star false dot) ++ Lit ":" ++ plus true space ++ Lit "S" ++
   Grp 2 (plus true digit) ++ lits ":E" ++ Grp 3 (plus true digit) ++
   Opt (plus true space ++ Grp 4 (plus true dot)))%re.

(** [r"(.*?)\s+-\s+S(\d+)E(\d+)(?:\s+-\s+(.+))?"] *)
Definition disney_show_pattern : regex :=
  (Grp 1 (Star false dot) ++ plus true space ++ Lit "-" ++ plus true space ++
   Lit "S" ++ Grp 2 (plus true digit) ++ Lit "E" ++ Grp 3 (plus true digit) ++
   Opt (plus true space ++ Lit "-" ++ plus true space ++ Grp 4 (plus true dot)))%re.

Definition parse_netflix_title (title : string) : Parsed :=
  let title :=
    if PyStr.startswith title "Netflix - " then PyStr.drop 10 title else title in
  match rmatch netflix_show_pattern title with
  | Some m =>
      mkParsed (PyStr.strip (group_or_empty 1 m)) "show"
               (Some (PyStr.int (group_or_empty 2 m)))
               (Some (PyStr.int (group_or_empty 3 m)))
               (stripped_group 4 m)
  | None => mkParsed (PyStr.strip title) "movie" None None None
  end.

(** The en dash and the em dash, as their UTF-8 bytes. *)
Definition en_dash : string :=
  String "226"%char (String "128"%char (String "147"%char EmptyString)).
Definition em_dash : string :=
  String "226"%char (String "128"%char (String "148"%char EmptyString)).

Definition disney_brandings : list string :=
  [" | Disney+"; " - Disney+"; " " ++ en_dash ++ " Disney+"; "Disney+"].

Definition remove_all (patterns : list string) (s : string) : string :=
  fold_left (fun acc pattern =>
               if PyStr.contains pattern acc then PyStr.replace acc pattern EmptyString
               else acc)
            patterns s.

Definition parse_disney_title (title : string) : Parsed :=
  let clean_title :=
    if PyStr.startswith title "Disney+ - " then PyStr.drop 10 title else title in
  let clean_title := remove_all disney_brandings clean_title in
  let clean_title := PyStr.strip clean_title in
  match rmatch disney_show_pattern clean_title with
  | Some m =>
      let episode_title :=
        match group 4 m with
        | Some g =>
            if PyStr.truthy g
            then Some (PyStr.strip (remove_all disney_brandings (PyStr.strip g)))
            else None
        | None => None
        end in
      mkParsed (PyStr.strip (group_or_empty 1 m)) "show"
               (Some (PyStr.int (group_or_empty 2 m)))
               (Some (PyStr.int (group_or_empty 3 m)))
               episode_title
  | None => mkParsed (PyStr.strip clean_title) "movie" None None None
  end.

(** [clean_title]: branding, browser chrome, the [Watch ] prefix, the
    stray word [on], and separators at both ends. *)
Definition disney_patterns : list string :=
  [" | Disney+"; " - Disney+"; " " ++ en_dash ++ " Disney+"; "Disney+ - "; " Disney+"].
Definition netflix_patterns : list string :=
  [" - Netflix"; " | Netflix"; "Netflix - "; " Netflix"].

Definition replace_each (patterns : list string) (s : string) : string :=
  fold_left (fun acc pattern => PyStr.replace acc pattern EmptyString) patterns s.

Definition browser_chrome : list regex :=
  [ (plus true space ++ lits "and " ++ plus true digit ++ lits " more pages"
     ++ Star true dot)%re;
    (plus true space ++ lits "- Personal" ++ Star true dot)%re;
    (plus true space ++ lits "- Microsoft" ++ Star true dot ++ lits "Edge")%re;
    (plus true space ++ lits "- Google Chrome")%re;
    (plus true space ++ lits "- Brave")%re;
    (plus true space ++ lits "- Firefox")%re ].

(** [r'\s+on\s*$'] *)
Definition on_at_end : regex :=
  (plus true space ++ lits "on" ++ Star true space ++ Eol)%re.
(** [r'^\s*on\s+'] *)
Definition on_at_start : regex :=
  (Bol ++ Star true space ++ lits "on" ++ plus true space)%re.
(** [r'\s+on\s+'] *)
Definition on_inside : regex :=
  (plus true space ++ lits "on" ++ plus true space)%re.

Definition clean_title (title service : string) : string :=
  if negb (PyStr.truthy title) then EmptyString
  else
    let title :=
      if String.eqb service "Disney+" then replace_each disney_patterns title
      else if String.eqb service "Netflix" then replace_each netflix_patterns title
      else title in
    let title := fold_left (fun acc r => Re.sub r EmptyString acc) browser_chrome title in
    let title :=
      if PyStr.startswith title "Watch " then PyStr.drop 6 title else title in
    let title := Re.sub on_at_end EmptyString title in
    let title := Re.sub on_at_start EmptyString title in
    let title := Re.sub on_inside " " title in
    let title := PyStr.strip_chars title (" |:-" ++ en_dash ++ em_dash) in
    PyStr.strip title.

(** ** The operating system, as one poll cycle sees it *)

Record Window : Type := mkWindow {
  hwnd : Z;
  w_title : string;
  process_name : option string
}.

(** [proc.info] of [psutil.process_iter(['pid', 'name', 'cmdline'])]: a name
    or a command line that could not be read is empty. *)
Record Proc : Type := mkProc {
  proc_name : string;
  cmdline : list string
}.

Record World : Type := mkWorld {
  process_iter : list Proc;
  EnumWindows : list Z;
  GetWindowText : Z -> string;
  get_process_name_by_hwnd : Z -> option string;
  GetForegroundWindow : Z;
  IsWindowVisible : Z -> bool;
  time_time : Z
}.

(** [enum_windows_callback] keeps the windows that have a title. *)
Definition get_all_windows (W : World) : list Window :=
  flat_map (fun h =>
              let window_title := GetWindowText W h in
              if PyStr.truthy window_title
              then [mkWindow h window_title (get_process_name_by_hwnd W h)]
              else [])
           (EnumWindows W).

Definition NETFLIX_APP_NAME : string := "Netflix".
Definition DISNEY_APP_NAME : string := "Disney+".

(** [any(p in s for p in patterns)] *)
Definition any_in (patterns : list string) (s : string) : bool :=
  existsb (fun p => PyStr.contains p s) patterns.

(** [s in l] for a list of strings. *)
Definition mem_str (s : string) (l : list string) : bool :=
  existsb (String.eqb s) l.

(** A [for] loop whose body either returns ([Some]) or goes on to the next
    element ([None]). *)
Fixpoint first_return {A B : Type} (body : A -> option B) (l : list A) : option B :=
  match l with
  | [] => None
  | x :: l' =>
      match body x with
      | Some r => Some r
      | None => first_return body l'
      end
  end.

(** ** The system-process collector *)

Definition disney_process_names : list string :=
  ["Disney+.exe"; "WWAHost.exe"; "ApplicationFrameHost.exe"; "explorer.exe"].
Definition netflix_process_names : list string :=
  ["Netflix.exe"; "WWAHost.exe"; "ApplicationFrameHost.exe"].

Definition by_system (service : string) (p : Parsed) : Media :=
  mkMedia (p_title p) service (p_type p) (p_season p) (p_episode p)
          (p_episodeTitle p) true.

Definition generic_content (service : string) : Media :=
  mkMedia (service ++ " Content") service "unknown" None None None true.

(** The title of the first window that shows [app] in its title. *)
Definition first_title_with (app : string) (windows : list Window) : option string :=
  option_map w_title (find (fun w => PyStr.contains app (w_title w)) windows).

Definition is_candidate_process (names : list string) (proc : Proc) : bool :=
  existsb (fun n => String.eqb (PyStr.lower (proc_name proc)) (PyStr.lower n)) names.

Definition cmd_str (proc : Proc) : string :=
  match cmdline proc with
  | [] => EmptyString
  | cmd_line => PyStr.lower (PyStr.join " " cmd_line)
  end.

(** The body of one of the two process loops, for [service], whose candidate
    process names are [names], whose generic host processes are [hosts] and
    whose command-line marks are [terms]. *)
Definition process_step (W : World) (service app : string)
           (parse : string -> Parsed) (names hosts terms : list string)
           (proc : Proc) : option Media :=
  if is_candidate_process names proc then
    let found_by_window (_ : unit) :=
      let window_title :=
        match first_title_with app (get_all_windows W) with
        | Some t => t
        | None => EmptyString
        end in
      if PyStr.truthy window_title
      then Some (by_system service (parse window_title))
      else Some (generic_content service) in
    if mem_str (PyStr.lower (proc_name proc)) hosts then
      if negb (any_in terms (PyStr.lower (cmd_str proc))) then
        match first_title_with app (get_all_windows W) with
        | Some t => Some (by_system service (parse t))
        | None => None
        end
      else found_by_window tt
    else found_by_window tt
  else None.

Definition disney_process_step (W : World) : Proc -> option Media :=
  process_step W "Disney+" DISNEY_APP_NAME parse_disney_title
               disney_process_names
               ["applicationframehost.exe"; "wwahost.exe"; "explorer.exe"]
               ["disney"; "disneyplus"].

Definition netflix_process_step (W : World) : Proc -> option Media :=
  process_step W "Netflix" NETFLIX_APP_NAME parse_netflix_title
               netflix_process_names
               ["applicationframehost.exe"; "wwahost.exe"]
               ["netflix"].

(** The last loop: a browser window whose title names a service and several
    tabs. *)
Definition browser_title_step (w : Window) : option Media :=
  let title := w_title w in
  if negb (PyStr.truthy title) then None
  else if (PyStr.contains "Netflix" title || PyStr.contains "Disney+" title)
          && any_in ["more pages"; "more tab"; "and tab"] title then
    if any_in ["readme"; ".md"; "documentation"; "github"; "developer";
               "programming"; "code"; "disney + & netflix"] (PyStr.lower title)
    then None
    else if PyStr.contains "Netflix" title then Some (generic_content "Netflix")
    else if PyStr.contains "Disney+" title then Some (generic_content "Disney+")
    else None
  else None.

Definition check_system_processes (W : World) : option Media :=
  let all_processes := process_iter W in
  match first_return (disney_process_step W) all_processes with
  | Some r => Some r
  | None =>
      match first_return (netflix_process_step W) all_processes with
      | Some r => Some r
      | None => first_return browser_title_step (get_all_windows W)
      end
  end.

(** ** The native-app collector *)

(** A record under construction in a collector: the media fields and the
    transient [window_hwnd] and [is_visible] ([is_running] is always true and,
    like the other two, deleted from the copy that is returned). *)
Record Candidate : Type := mkCandidate {
  cand_media : Media;
  window_hwnd : Z;
  is_visible : bool
}.

Definition by_window (service : string) (p : Parsed) (h : Z) (visible : bool)
  : Candidate :=
  mkCandidate (mkMedia (p_title p) service (p_type p) (p_season p)
                       (p_episode p) (p_episodeTitle p) false)
              h visible.

Definition native_candidates (title : string) (h : Z) (visible : bool)
  : list Candidate :=
  ((if PyStr.contains NETFLIX_APP_NAME title
    then [by_window "Netflix" (parse_netflix_title title) h visible] else [])
   ++
   (if PyStr.contains DISNEY_APP_NAME title
    then [by_window "Disney+" (parse_disney_title title) h visible] else []))%list.

(** The selection shared by the two window collectors: the candidate of the
    foreground window if there is one, else the first candidate. *)
Definition select_window (active_window_hwnd : Z) (found : list Candidate)
  : option Media :=
  match found with
  | [] => None
  | first :: _ =>
      match find (fun c => Z.eqb (window_hwnd c) active_window_hwnd) found with
      | Some c => Some (cand_media c)
      | None => Some (cand_media first)
      end
  end.

Definition check_native_apps (W : World) : option Media :=
  let active_window_hwnd := GetForegroundWindow W in
  let active_window_title := GetWindowText W active_window_hwnd in
  let streaming_apps :=
    (native_candidates active_window_title active_window_hwnd true
    ++
    flat_map (fun w =>
                if Z.eqb (hwnd w) active_window_hwnd then []
                else if negb (PyStr.truthy (w_title w)) then []
                else if any_in [".env"; "settings"; "cursor"; "code editor"]
                               (PyStr.lower (w_title w)) then []
                else native_candidates (w_title w) (hwnd w)
                                       (IsWindowVisible W (hwnd w)))
             (get_all_windows W))%list in
  select_window active_window_hwnd streaming_apps.

(** ** Exceptions and state

    A computation over a store [S] either returns or raises; the store it
    leaves behind is kept in both cases, as Python keeps the effects made
    before an exception. *)

Inductive exc : Type :=
| UnboundLocalError (name : string)
| NameError (name : string)
| TypeError (msg : string)
| AttributeError (msg : string)
| PsutilError (msg : string)
| Win32Error (msg : string)
| BackendError (msg : string).

(** [str(e)] *)
Definition str_of_exc (e : exc) : string :=
  match e with
  | UnboundLocalError name =>
      "local variable '" ++ name ++ "' referenced before assignment"
  | NameError name => "name '" ++ name ++ "' is not defined"
  | TypeError msg => msg
  | AttributeError msg => msg
  | PsutilError msg => msg
  | Win32Error msg => msg
  | BackendError msg => msg
  end.

Definition Py (S A : Type) : Type := S -> (A + exc) * S.

Section PyMonad.
Context {S : Type}.

Definition ret {A} (a : A) : Py S A := fun s => (inl a, s).

Definition raise {A} (e : exc) : Py S A := fun s => (inr e, s).

Definition bind {A B} (m : Py S A) (k : A -> Py S B) : Py S B :=
  fun s =>
    match m s with
    | (inl a, s') => k a s'
    | (inr e, s') => (inr e, s')
    end.

(** [try: m except Exception as e: handler e] *)
Definition try_except {A} (m : Py S A) (handler : exc -> Py S A) : Py S A :=
  fun s =>
    match m s with
    | (inl a, s') => (inl a, s')
    | (inr e, s') => handler e s'
    end.

Definition get : Py S S := fun s => (inl s, s).

(** The outcome of a call that has no effect on the store. *)
Definition lift {A} (r : A + exc) : Py S A := fun s => (r, s).

Definition modify (f : S -> S) : Py S unit := fun s => (inl tt, f s).

(** [for x in l: body x] *)
Fixpoint for_each {A} (l : list A) (body : A -> Py S unit) : Py S unit :=
  match l with
  | [] => ret tt
  | x :: l' => bind (body x) (fun _ => for_each l' body)
  end.

(** [if c: m] *)
Definition when (c : bool) (m : Py S unit) : Py S unit :=
  if c then m else ret tt.

End PyMonad.

Declare Scope py_scope.
Delimit Scope py_scope with py.
Notation "x <- m ;; k" := (bind m (fun x => k))
  (at level 61, m at next level, right associativity) : py_scope.
Notation "m ;; k" := (bind m (fun _ => k))
  (at level 61, right associativity) : py_scope.
Local Open Scope py_scope.

(** ** The reads that can raise

    What the reads made outside any [try] raise in one poll, if they
    raise.  [native_raises] is the first exception of a read made by
    [check_native_apps]: the function has no handler and no effect of its
    own, so the exception leaves it as it is.  [name_raises i] is the
    exception of [proc.name()] on the [i]-th process of the table in the
    scans that open [check_browser_tabs]: the process has gone since the
    table was read, or may not be inspected.  The reads made inside a
    [try] return what the snapshot holds. *)
Record Faults : Type := mkFaults {
  native_raises : option exc;
  name_raises : nat -> option exc
}.

Definition no_faults : Faults := mkFaults None (fun _ => None).

(** ** The browser-tab collector *)

Definition SUPPORTED_BROWSERS : list (string * string) :=
  [("chrome.exe", "Chrome"); ("msedge.exe", "Edge");
   ("firefox.exe", "Firefox"); ("brave.exe", "Brave")].

(** The local variables of [check_browser_tabs] that outlive a statement.
    [clean_title] is assigned in the body, so the name is local to the
    function from its first line on and starts unbound. *)
Record BrowserLocals : Type := mkBrowserLocals {
  clean_title_local : option string;
  streaming_windows : list Candidate
}.

(** The expression [clean_title(title, service)] inside
    [check_browser_tabs]: the callee is the local name. *)
Definition call_clean_title_local (title service : string)
  : Py BrowserLocals string :=
  fun L =>
    match clean_title_local L with
    | None => (inr (UnboundLocalError "clean_title"), L)
    | Some _ => (inr (TypeError "'str' object is not callable"), L)
    end.

Definition assign_clean_title (v : string) : Py BrowserLocals unit :=
  modify (fun L => mkBrowserLocals (Some v) (streaming_windows L)).

Definition append_window (c : Candidate) : Py BrowserLocals unit :=
  modify (fun L => mkBrowserLocals (clean_title_local L)
                                   (streaming_windows L ++ [c])%list).

Definition doc_markers : list string :=
  ["readme"; ".md"; "documentation"; "github"; ".txt"; "license"; "coding";
   "programming"; "developer"].

(** The dict built from a branded browser title. *)
Definition titled_candidate (W : World) (service : string) (show_pattern : regex)
           (cleaned : string) (w : Window) : Candidate :=
  let visible := IsWindowVisible W (hwnd w) in
  match Re.search show_pattern cleaned with
  | Some m =>
      mkCandidate (mkMedia (PyStr.strip (group_or_empty 1 m)) service "show"
                           (Some (PyStr.int (group_or_empty 2 m)))
                           (Some (PyStr.int (group_or_empty 3 m)))
                           (stripped_group 4 m) false)
                  (hwnd w) visible
  | None =>
      mkCandidate (mkMedia cleaned service "movie" None None None false)
                  (hwnd w) visible
  end.

Definition is_readme (title : string) : bool :=
  PyStr.contains "readme" (PyStr.lower title)
  || PyStr.contains ".md" (PyStr.lower title).

Definition same_process (process_name browser_process : string) : bool :=
  String.eqb (PyStr.lower process_name) (PyStr.lower browser_process).

Definition opt_truthy (s : option string) : bool :=
  match s with
  | Some v => PyStr.truthy v
  | None => false
  end.

Definition opt_str (s : option string) : string :=
  match s with
  | Some v => v
  | None => EmptyString
  end.

(** The body of the first loop over the windows. *)
Definition first_pass (W : World) (browser_process : string) (w : Window)
  : Py BrowserLocals unit :=
  let title := w_title w in
  let disney_part : Py BrowserLocals unit :=
    let is_disney :=
      existsb (fun pattern => PyStr.contains (PyStr.lower pattern) (PyStr.lower title))
              ["Disney+"; "disneyplus"] in
    if is_disney then
      if is_readme title then ret tt
      else
        cleaned <- call_clean_title_local title "Disney+" ;;
        assign_clean_title cleaned ;;
        append_window (titled_candidate W "Disney+" disney_show_pattern cleaned w)
    else ret tt in
  if negb (opt_truthy (process_name w)) || negb (PyStr.truthy title) then ret tt
  else if negb (same_process (opt_str (process_name w)) browser_process) then ret tt
  else if any_in doc_markers (PyStr.lower title) then ret tt
  else if PyStr.contains " - Netflix" title || PyStr.contains "Netflix" title then
    if is_readme title then ret tt
    else
      cleaned <- call_clean_title_local title "Netflix" ;;
      assign_clean_title cleaned ;;
      append_window (titled_candidate W "Netflix" netflix_show_pattern cleaned w) ;;
      disney_part
  else disney_part.

(** The dict built from a title that shows the address of a service. *)
Definition url_candidate (W : World) (service : string) (bare : list string)
           (cleaned : string) (w : Window) : Candidate :=
  let cleaned :=
    if negb (PyStr.truthy cleaned) || mem_str (PyStr.lower cleaned) bare
    then service ++ " Content" else cleaned in
  mkCandidate (mkMedia cleaned service "unknown" None None None false)
              (hwnd w) (IsWindowVisible W (hwnd w)).

(** The body of the second loop over the windows. *)
Definition second_pass (W : World) (browser_process : string) (w : Window)
  : Py BrowserLocals unit :=
  let title := w_title w in
  if negb (opt_truthy (process_name w)) || negb (PyStr.truthy title) then ret tt
  else if same_process (opt_str (process_name w)) browser_process then
    if PyStr.contains "disneyplus.com" (PyStr.lower title)
       || PyStr.contains "disney+" (PyStr.lower title) then
      cleaned <- call_clean_title_local title "Disney+" ;;
      assign_clean_title cleaned ;;
      append_window (url_candidate W "Disney+" ["disney+ | disney+"; "disney+"]
                                   cleaned w)
    else if PyStr.contains "netflix.com" (PyStr.lower title) then
      cleaned <- call_clean_title_local title "Netflix" ;;
      assign_clean_title cleaned ;;
      append_window (url_candidate W "Netflix" ["netflix"; "home - netflix"]
                                   cleaned w)
    else ret tt
  else ret tt.

(** [any(proc.name().lower() == browser_process.lower() for proc in
    psutil.process_iter())]: the names are read in the order of the table
    until one matches; a read that raises ends the scan with its
    exception. *)
Fixpoint name_scan (F : Faults) (browser_process : string) (i : nat)
         (procs : list Proc) : bool + exc :=
  match procs with
  | [] => inl false
  | proc :: procs' =>
      match name_raises F i with
      | Some e => inr e
      | None =>
          if same_process (proc_name proc) browser_process then inl true
          else name_scan F browser_process (S i) procs'
      end
  end.

Definition browser_running (F : Faults) (W : World) (browser_process : string)
  : bool + exc :=
  name_scan F browser_process 0 (process_iter W).

(** The body of the loop over the browsers: the scan of the process table
    stands before the [try]; the two passes stand in it, and the handler
    logs and goes on to the next browser. *)
Definition scan_browser (F : Faults) (W : World) (browser : string * string)
  : Py BrowserLocals unit :=
  let browser_process := fst browser in
  running <- lift (browser_running F W browser_process) ;;
  if running then
    try_except
      (let windows := get_all_windows W in
       for_each windows (first_pass W browser_process) ;;
       for_each windows (second_pass W browser_process))
      (fun _ => ret tt)
  else ret tt.

Definition check_browser_tabs_body (F : Faults) (W : World)
  : Py BrowserLocals (option Media) :=
  for_each SUPPORTED_BROWSERS (scan_browser F W) ;;
  L <- get ;;
  ret (select_window (GetForegroundWindow W) (streaming_windows L)).

Definition check_browser_tabs (F : Faults) (W : World) : option Media + exc :=
  fst (check_browser_tabs_body F W (mkBrowserLocals None [])).

(** ** The Discord client, the metadata service and the module globals *)

(** A [pypresence.Presence] object; it is bound to the client identity it
    was built with. *)
Record Presence : Type := mkPresence {
  client_id : string
}.

(** The keyword arguments of [rpc.update]. *)
Record Activity : Type := mkActivity {
  details : string;
  state : string;
  large_image : string;
  small_image : option string;
  small_text : option string;
  large_text : option string;
  buttons : list (string * string)
}.

Inductive collector : Type :=
| SystemProcesses
| NativeApps
| BrowserTabs.

(** What a poll cycle does that can be seen from outside, in order. *)
Inductive event : Type :=
| Consulted (c : collector)
| NewPresence (id : string)
| Connect (id : string)
| Update (id : string) (a : Activity)
| Clear (id : string)
| Close (id : string)
| Sleep (milliseconds : nat)
| FindMediaImage (m : Media).

Inductive outcome : Type :=
| Done
| Fails (msg : string).

(** What [detect_media] reads and does not write: the world, the three
    client identities, the answer of Discord to a call given the history up
    to and with that call, and the TMDB search. *)
Record Env : Type := mkEnv {
  world : World;
  DISCORD_CLIENT_ID : string;
  DISNEY_CLIENT_ID : string;
  NETFLIX_CLIENT_ID : string;
  discord : list event -> outcome;
  find_improved_tmdb_image :
    string -> string -> option Z -> option Z -> option string
}.

(** The module globals, with the trace.  [rpc = None] is the name [rpc]
    not being defined; a [Presence] object is always true. *)
Record State : Type := mkState {
  current_media : option Media;
  start_timestamp : option Z;
  rpc : option Presence;
  trace : list event
}.

Definition set_current_media (v : option Media) : Py State unit :=
  modify (fun st => mkState v (start_timestamp st) (rpc st) (trace st)).

Definition set_start_timestamp (v : option Z) : Py State unit :=
  modify (fun st => mkState (current_media st) v (rpc st) (trace st)).

Definition set_rpc (v : option Presence) : Py State unit :=
  modify (fun st => mkState (current_media st) (start_timestamp st) v (trace st)).

Definition record (ev : event) (st : State) : State :=
  mkState (current_media st) (start_timestamp st) (rpc st) (trace st ++ [ev])%list.

Definition emit (ev : event) : Py State unit := modify (record ev).

(** A call into [pypresence]: it is recorded, then it returns or raises. *)
Definition backend_call (E : Env) (ev : event) : Py State unit :=
  fun st =>
    let st' := record ev st in
    match discord E (trace st') with
    | Done => (inl tt, st')
    | Fails msg => (inr (BackendError msg), st')
    end.

(** [rpc.method(...)]: the global [rpc] is looked up first. *)
Definition on_rpc (E : Env) (method : string -> event) : Py State unit :=
  st <- get ;;
  match rpc st with
  | Some p => backend_call E (method (client_id p))
  | None => raise (NameError "rpc")
  end.

(** [rpc = Presence(id)]: the name is bound only if the constructor
    returns. *)
Definition new_presence (E : Env) (id : string) : Py State unit :=
  backend_call E (NewPresence id) ;;
  set_rpc (Some (mkPresence id)).

Definition lift_result {A : Type} (r : A + exc) : Py State A :=
  fun st => (r, st).

(** The truth value of an optional [int]: [None] and [0] are false. *)
Definition truthy_int (v : option Z) : bool :=
  match v with
  | Some n => negb (Z.eqb n 0)
  | None => false
  end.

Definition opt_Z_eqb (a b : option Z) : bool :=
  match a, b with
  | Some x, Some y => Z.eqb x y
  | None, None => true
  | _, _ => false
  end.

(** [s[:97] + "..."] when [s] is longer than 100.  The length and the
    slice count bytes, which are the characters of an ASCII [s]. *)
Definition limit_100 (s : string) : string :=
  if (100 <? String.length s)%nat then PyStr.take 97 s ++ "..." else s.

(** ** [find_media_image] *)

(** [r'^(.*?)\s+S\d+'] *)
Definition series_pattern1 : regex :=
  (Bol ++ Grp 1 (Star false dot) ++ plus true space ++ Lit "S" ++ plus true digit)%re.
(** [r'^(.*?)\s+-\s+S\d+E\d+'] *)
Definition series_pattern2 : regex :=
  (Bol ++ Grp 1 (Star false dot) ++ plus true space ++ Lit "-" ++ plus true space
   ++ Lit "S" ++ plus true digit ++ Lit "E" ++ plus true digit)%re.
(** [r'^(.*?)\s+S(?:eason)?\s*\d+\s+E(?:pisode)?\s*\d+'], ignoring case *)
Definition series_pattern3 : regex :=
  (Bol ++ Grp 1 (Star false dot) ++ plus true space ++ Lit "S" ++ Opt (lits "eason")
   ++ Star true space ++ plus true digit ++ plus true space ++ Lit "E"
   ++ Opt (lits "pisode") ++ Star true space ++ plus true digit)%re.

Definition series_name (m : option captures) (series_title : string) : string :=
  match m with
  | Some c => PyStr.strip (group_or_empty 1 c)
  | None => series_title
  end.

Definition find_media_image (E : Env) (media_info : Media)
  : Py State (option string) :=
  emit (FindMediaImage media_info) ;;
  let title := PyStr.strip (title media_info) in
  let media_type := media_type media_info in
  let is_show := String.eqb media_type "show" in
  let series_title :=
    if is_show then
      let t := series_name (rmatch series_pattern1 title) title in
      let t := series_name (rmatch series_pattern2 t) t in
      series_name (rmatch_icase series_pattern3 t) t
    else title in
  let season_number := if is_show then season media_info else None in
  let episode_number := if is_show then episode media_info else None in
  let search_title := clean_title series_title (service media_info) in
  let tmdb_image :=
    find_improved_tmdb_image E search_title media_type season_number
                             episode_number in
  ret (if opt_truthy tmdb_image then tmdb_image else None).

(** ** [reconnect_discord] and [update_presence] *)

Definition reconnect_discord (E : Env) : Py State bool :=
  try_except
    (try_except (on_rpc E Close) (fun _ => ret tt) ;;
     emit (Sleep 3000) ;;
     new_presence E (DISCORD_CLIENT_ID E) ;;
     on_rpc E Connect ;;
     ret true)
    (fun _ => ret false).

Definition pipe_timeout : string :=
  "No response was received from the pipe in time".

Definition presence_state (media_info : Media) : string :=
  let service := service media_info in
  if String.eqb (media_type media_info) "show"
     && truthy_int (season media_info) && truthy_int (episode media_info) then
    let state :=
      "S" ++ PyStr.of_int (match season media_info with Some n => n | None => 0%Z end)
      ++ ":E"
      ++ PyStr.of_int (match episode media_info with Some n => n | None => 0%Z end) in
    if opt_truthy (episodeTitle media_info) then
      let clean_episode_title :=
        clean_title (opt_str (episodeTitle media_info)) service in
      let clean_episode_title := Re.sub on_at_end EmptyString clean_episode_title in
      limit_100 (state ++ " - " ++ clean_episode_title)
    else state
  else "Watching on " ++ service.

Definition update_presence (E : Env) (media_info : Media)
           (image_key : option string) : Py State unit :=
  let service := service media_info in
  let display_title := limit_100 (clean_title (title media_info) service) in
  let large_image_key :=
    if String.eqb service "Netflix" then "netflix" else "disney" in
  let minimal_activity :=
    mkActivity display_title (presence_state media_info) large_image_key
               None None None [] in
  (* the basic update, with one reconnection on a pipe timeout *)
  update_successful <-
    try_except
      (on_rpc E (fun id => Update id minimal_activity) ;; ret true)
      (fun e =>
         if PyStr.contains pipe_timeout (str_of_exc e) then
           reconnected <- reconnect_discord E ;;
           if reconnected then
             try_except
               (on_rpc E (fun id => Update id minimal_activity) ;; ret true)
               (fun _ => ret false)
           else ret false
         else ret false) ;;
  (* the thumbnail *)
  image_activity <-
    (if update_successful && opt_truthy image_key then
       let key := opt_str image_key in
       let image_activity :=
         mkActivity display_title (presence_state media_info) large_image_key
                    (Some (if PyStr.startswith key "http" then key
                           else "https://image.tmdb.org/t/p/w200" ++ key))
                    (Some (if (100 <? String.length display_title)%nat
                           then PyStr.take 100 display_title else display_title))
                    None [] in
       emit (Sleep 1000) ;;
       try_except (on_rpc E (fun id => Update id image_activity)) (fun _ => ret tt) ;;
       ret (Some image_activity)
     else ret None) ;;
  (* the button *)
  if update_successful then
    let service_url :=
      if String.eqb service "Netflix" then "https://www.netflix.com"
      else if String.eqb service "Disney+" then "https://www.disneyplus.com"
      else EmptyString in
    let base :=
      match image_activity with
      | Some a => a
      | None => minimal_activity
      end in
    let full_activity :=
      mkActivity (details base) (state base) (large_image base)
                 (small_image base) (small_text base)
                 (Some ("Watching on " ++ service))
                 [("Watch on " ++ service, service_url)] in
    emit (Sleep 1000) ;;
    try_except (on_rpc E (fun id => Update id full_activity)) (fun _ => ret tt)
  else ret tt.

(** ** [detect_media] *)

(** The call of [check_native_apps]: a read that raises ends it. *)
Definition call_check_native_apps (F : Faults) (W : World)
  : Py State (option Media) :=
  match native_raises F with
  | Some e => raise e
  | None => ret (check_native_apps W)
  end.

(** The cascade over the three collectors. *)
Definition collect (F : Faults) (E : Env) : Py State Detection :=
  let W := world E in
  emit (Consulted SystemProcesses) ;;
  media_info <- ret (check_system_processes W) ;;
  media_info <-
    match media_info with
    | Some _ => ret media_info
    | None => emit (Consulted NativeApps) ;; call_check_native_apps F W
    end ;;
  media_info <-
    match media_info with
    | Some _ => ret media_info
    | None => emit (Consulted BrowserTabs) ;; lift_result (check_browser_tabs F W)
    end ;;
  ret (match media_info with
       | Some m => Watching m
       | None => NotWatching
       end).

(** The filter applied to whatever the cascade selected. *)
Definition blanket_filter (media_info : Detection) : Detection :=
  match media_info with
  | NotWatching => NotWatching
  | Watching m =>
      let title := PyStr.lower (title m) in
      if PyStr.contains "readme" title || PyStr.contains ".md" title
         || PyStr.contains "documentation" title then NotWatching
      else if any_in ["repo"; "repository"; "project"; "folder"; "file"; "code";
                      "github"] title then NotWatching
      else if PyStr.contains "disney + & netflix" title
              || PyStr.contains "streaming" title then NotWatching
      else if (String.length title <? 5)%nat && negb (detected_by_system m)
           then NotWatching
      else media_info
  end.

Definition ignore_patterns : list string :=
  [".env"; "settings"; "config"; "cursor"; "visual studio"; "vscode";
   "code editor"; "discord"; "settings.json"; "explorer"; "file"; "folder";
   "cmd"; "command"; "powershell"; "terminal"; "python"; "readme"; "github";
   ".md"; "markdown"; "documentation"; "notepad"; "editor"; "setting";
   "preference"; "profile"; "account"; "login"; "sign in"; "guide"; "tutorial";
   "help"; "support"; "download"; "upload"; "install"; "setup"; "configure";
   "json"; "xml"; "yaml"; "ini"; "conf"; "log"; "txt"; "text"; "document";
   "license"; "copyright"; "about"; "information"; "readme.md"; "cursor";
   "disney + & netflix"; "streaming"; "presence"; "rich presence";
   "discord presence"].

Definition is_false_positive (m : Media) : bool :=
  existsb (fun pattern => PyStr.contains (PyStr.lower pattern) (PyStr.lower (title m)))
          ignore_patterns.

(** [if current_media: current_media = None; try: if rpc: rpc.clear() ...] *)
Definition clear_presence (E : Env) : Py State unit :=
  st <- get ;;
  match current_media st with
  | Some _ =>
      set_current_media None ;;
      try_except
        (st <- get ;;
         match rpc st with
         | Some _ => on_rpc E Clear
         | None => ret tt
         end)
        (fun _ => ret tt)
  | None => ret tt
  end.

Definition truthy_time (t : option Z) : bool := truthy_int t.

Definition force_update_due (current_time : Z) (start_timestamp : option Z) : bool :=
  match start_timestamp with
  | Some t => negb (Z.eqb t 0) && (((current_time - t) mod 180) <? 5)%Z
  | None => false
  end.

Definition content_changed (media_info : Media) (current_media : option Media)
  : bool :=
  match current_media with
  | None => true
  | Some cm =>
      negb (String.eqb (service media_info) (service cm))
      || negb (String.eqb (title media_info) (title cm))
      || negb (opt_Z_eqb (episode media_info) (episode cm))
      || negb (opt_Z_eqb (season media_info) (season cm))
  end.

Definition client_id_for (E : Env) (service : string) : string :=
  if String.eqb service "Disney+" then DISNEY_CLIENT_ID E
  else if String.eqb service "Netflix" then NETFLIX_CLIENT_ID E
  else DISCORD_CLIENT_ID E.

Definition is_some {A : Type} (o : option A) : bool :=
  match o with
  | Some _ => true
  | None => false
  end.

(** [if service_changed or not rpc:] close the connection there is, then
    open one under the identity of the service. *)
Definition connect_for (E : Env) (media_info : Media) (service_changed : bool)
  : Py State unit :=
  st <- get ;;
  when (service_changed || negb (is_some (rpc st)))
       (when (is_some (rpc st))
             (try_except (on_rpc E Clear ;; on_rpc E Close) (fun _ => ret tt)) ;;
        try_except
          (new_presence E (client_id_for E (service media_info)) ;;
           on_rpc E Connect)
          (fun _ => ret tt)).

(** The end of [detect_media]: nothing is pushed without a client object;
    with one, the image is looked up and the presence is updated. *)
Definition push (E : Env) (media_info : Media) : Py State unit :=
  st <- get ;;
  if negb (is_some (rpc st)) then ret tt
  else
    image_key <- find_media_image E media_info ;;
    update_presence E media_info image_key.

(** The part of [detect_media] that follows the two filters. *)
Definition synchronize (E : Env) (media_info : Media) : Py State unit :=
  st <- get ;;
  let service_changed :=
    match current_media st with
    | Some cm => negb (String.eqb (service cm) (service media_info))
    | None => false
    end in
  let current_time := time_time (world E) in
  let force_update := force_update_due current_time (start_timestamp st) in
  if content_changed media_info (current_media st) || force_update then
    when (negb force_update || negb (truthy_time (start_timestamp st)))
         (set_start_timestamp (Some current_time)) ;;
    connect_for E media_info service_changed ;;
    set_current_media (Some media_info) ;;
    push E media_info
  else ret tt.

(** The decision taken on the record the cascade selected. *)
Definition decide (E : Env) (selected : Detection) : Py State unit :=
  match blanket_filter selected with
  | NotWatching => clear_presence E
  | Watching m =>
      if negb (detected_by_system m) && is_false_positive m
      then clear_presence E
      else synchronize E m
  end.

Definition detect_media (F : Faults) (E : Env) : Py State unit :=
  selected <- collect F E ;;
  decide E selected.

(** One poll cycle from [st] in which every read returns: the globals it
    leaves and what it did. *)
Definition cycle (E : Env) (st : State) : State :=
  snd (detect_media no_faults E
                    (mkState (current_media st) (start_timestamp st) (rpc st) [])).

(** ** [connect_to_discord] *)

Definition max_retries : nat := 5.

(** The scan of [psutil.process_iter(['name'])] for a process whose name
    contains [discord].  A name that could not be read is [None] in
    [proc.info], on which [.lower()] raises [AttributeError]; [Proc] holds
    the empty string for it, and no process has an empty name of its
    own. *)
Fixpoint discord_scan (procs : list Proc) : bool + exc :=
  match procs with
  | [] => inl false
  | proc :: procs' =>
      if negb (PyStr.truthy (proc_name proc)) then
        inr (AttributeError "'NoneType' object has no attribute 'lower'")
      else if PyStr.contains "discord" (PyStr.lower (proc_name proc)) then
        inl true
      else discord_scan procs'
  end.

(** The local [discord_running] when the scan is left, by its end, by
    [break] or by an exception. *)
Definition discord_running (W : World) : bool :=
  match discord_scan (process_iter W) with
  | inl found => found
  | inr _ => false
  end.

(** One turn of the [while] loop.  [Some b] is [return b]; [None] goes on
    to the next turn, after the pause.  The alternative attempt builds its
    client with [pipe=0]; the trace records it as a construction like the
    first one. *)
Definition connect_attempt (E : Env) (retry_count : nat) : Py State (option bool) :=
  try_except
    (new_presence E (DISCORD_CLIENT_ID E) ;;
     on_rpc E Connect ;;
     ret (Some true))
    (fun e =>
       let retry_count := S retry_count in
       let error_message := str_of_exc e in
       connected <-
         (if PyStr.contains "create_pipe_connection" error_message then
            if (retry_count <? max_retries)%nat then
              try_except
                (new_presence E (DISCORD_CLIENT_ID E) ;;
                 on_rpc E Connect ;;
                 ret true)
                (fun _ => ret false)
            else ret false
          else ret false) ;;
       if connected then ret (Some true)
       else if (retry_count <? max_retries)%nat then
         emit (Sleep (1000 * 2 ^ retry_count)) ;;
         ret None
       else ret (Some false)).

(** [while retry_count < max_retries], by the number of turns that are
    left: [retry_count] is [max_retries - remaining].  Leaving the loop by
    its condition ends the function without a [return]: [None]. *)
Fixpoint connect_loop (E : Env) (remaining : nat) : Py State (option bool) :=
  match remaining with
  | O => ret None
  | S remaining' =>
      r <- connect_attempt E (max_retries - remaining) ;;
      match r with
      | Some b => ret (Some b)
      | None => connect_loop E remaining'
      end
  end.

Definition connect_to_discord (E : Env) : Py State (option bool) :=
  running <- lift (discord_scan (process_iter (world E))) ;;
  if running then connect_loop E max_retries
  else ret (Some false).

(** ** [safe_cleanup] *)

Definition safe_cleanup (E : Env) : Py State unit :=
  try_except
    (st <- get ;;
     when (is_some (rpc st))
          (try_except
             (on_rpc E Clear ;;
              emit (Sleep 500) ;;
              on_rpc E Close)
             (fun _ => ret tt)))
    (fun _ => ret tt).

(** ** The loop of [main] *)

Record Loop : Type := mkLoop {
  current_interval : nat;
  consecutive_no_media : nat;
  consecutive_errors : nat;
  discord_connected : bool
}.

(** One turn of [while True]: a poll, the adaptive interval or the error
    count, then the pause. *)
Definition main_iteration (F : Faults) (E : Env) (l : Loop) : Py State Loop :=
  l' <- try_except
          (detect_media F E ;;
           st <- get ;;
           if is_some (current_media st) then
             ret (mkLoop 5 0 0 (discord_connected l))
           else
             let consecutive_no_media := S (consecutive_no_media l) in
             let current_interval :=
               if (5 <? consecutive_no_media)%nat then 15 else current_interval l in
             let current_interval :=
               if (20 <? consecutive_no_media)%nat then 30 else current_interval in
             ret (mkLoop current_interval consecutive_no_media 0
                         (discord_connected l)))
          (fun _ =>
             let consecutive_errors := S (consecutive_errors l) in
             if (3 <=? consecutive_errors)%nat && discord_connected l then
               connected <- reconnect_discord E ;;
               ret (mkLoop (current_interval l) (consecutive_no_media l) 0 connected)
             else
               ret (mkLoop (current_interval l) (consecutive_no_media l)
                           consecutive_errors (discord_connected l))) ;;
  emit (Sleep (1000 * current_interval l')) ;;
  ret l'.

(** The turns of the loop over the successive polls it makes, each with
    its environment and with what its reads raise. *)
Fixpoint main_loop (polls : list (Faults * Env)) (l : Loop) : Py State Loop :=
  match polls with
  | [] => ret l
  | (F, E) :: polls' =>
      l' <- main_iteration F E l ;;
      main_loop polls' l'
  end.

(** The loop variables at the start of [main]. *)
Definition main_start (connected : bool) : Loop := mkLoop 5 0 0 connected.

(** ** Vocabulary of the properties *)

(** What the cascade selects, and what the two filters leave of it: the
    record that reaches the state machine. *)
Definition selected (W : World) : Detection :=
  match check_system_processes W with
  | Some m => Watching m
  | None =>
      match check_native_apps W with
      | Some m => Watching m
      | None =>
          match check_browser_tabs no_faults W with
          | inl (Some m) => Watching m
          | _ => NotWatching
          end
      end
  end.

Definition classify (d : Detection) : Detection :=
  match blanket_filter d with
  | NotWatching => NotWatching
  | Watching m =>
      if negb (detected_by_system m) && is_false_positive m then NotWatching
      else Watching m
  end.

Definition fused (W : World) : Detection := classify (selected W).

(** The substrings tested by the first filter of [detect_media], in the
    order of its three title clauses. *)
Definition blanket_terms : list string :=
  ["readme"; ".md"; "documentation";
   "repo"; "repository"; "project"; "folder"; "file"; "code"; "github";
   "disney + & netflix"; "streaming"].

(** The collectors the cascade consults. *)
Definition consulted_by (W : World) : list collector :=
  match check_system_processes W with
  | Some _ => [SystemProcesses]
  | None =>
      match check_native_apps W with
      | Some _ => [SystemProcesses; NativeApps]
      | None => [SystemProcesses; NativeApps; BrowserTabs]
      end
  end.

(** The locals at the start of [check_browser_tabs]. *)
Definition fresh_locals : BrowserLocals := mkBrowserLocals None [].

(** A computation that, from the fresh locals, leaves them as they are and
    either completes or raises [UnboundLocalError] for [clean_title]. *)
Definition stuck {A : Type} (m : Py BrowserLocals A) : Prop :=
  (exists a, m fresh_locals = (inl a, fresh_locals))
  \/ m fresh_locals = (inr (UnboundLocalError "clean_title"), fresh_locals).

(** A window of [browser_process] whose title passes the documentation
    filter and names a service: the first loop reaches a call of
    [clean_title] on it. *)
Definition reaches_call (browser_process : string) (w : Window) : bool :=
  opt_truthy (process_name w)
  && same_process (opt_str (process_name w)) browser_process
  && negb (any_in doc_markers (PyStr.lower (w_title w)))
  && (PyStr.contains "Netflix" (w_title w)
      || PyStr.contains "disney+" (PyStr.lower (w_title w))
      || PyStr.contains "disneyplus" (PyStr.lower (w_title w))).

(** A window of [browser_process] whose title shows the address of a
    service: the second loop reaches a call of [clean_title] on it. *)
Definition shows_address (browser_process : string) (w : Window) : bool :=
  opt_truthy (process_name w)
  && same_process (opt_str (process_name w)) browser_process
  && (PyStr.contains "disneyplus.com" (PyStr.lower (w_title w))
      || PyStr.contains "disney+" (PyStr.lower (w_title w))
      || PyStr.contains "netflix.com" (PyStr.lower (w_title w))).

(** The two loops over the windows, as they stand in the [try]. *)
Definition passes (W : World) (browser_process : string) : Py BrowserLocals unit :=
  for_each (get_all_windows W) (first_pass W browser_process) ;;
  for_each (get_all_windows W) (second_pass W browser_process).

(** The first scan of the process table that raises, over the browsers in
    their order. *)
Fixpoint first_failure (F : Faults) (W : World) (browsers : list (string * string))
  : option exc :=
  match browsers with
  | [] => None
  | browser :: browsers' =>
      match browser_running F W (fst browser) with
      | inr e => Some e
      | inl _ => first_failure F W browsers'
      end
  end.

Definition failing_scan (F : Faults) (W : World) : option exc :=
  first_failure F W SUPPORTED_BROWSERS.

(** The exception that leaves a poll, if one does: a read of the
    native-app collector or of the scan of the browser collector, where
    the cascade comes to them. *)
Definition escaping (F : Faults) (W : World) : option exc :=
  match check_system_processes W with
  | Some _ => None
  | None =>
      match native_raises F with
      | Some e => Some e
      | None =>
          match check_native_apps W with
          | Some _ => None
          | None => failing_scan F W
          end
      end
  end.

(** The collectors a poll consults, a read of the native-app collector
    that raises ending the cascade there. *)
Definition consulted_under (F : Faults) (W : World) : list collector :=
  match check_system_processes W with
  | Some _ => [SystemProcesses]
  | None =>
      match native_raises F with
      | Some _ => [SystemProcesses; NativeApps]
      | None =>
          match check_native_apps W with
          | Some _ => [SystemProcesses; NativeApps]
          | None => [SystemProcesses; NativeApps; BrowserTabs]
          end
      end
  end.

(** The events that are calls into the Discord client or pauses. *)
Definition is_backend (ev : event) : bool :=
  match ev with
  | Consulted _ | FindMediaImage _ => false
  | _ => true
  end.

Definition is_lookup (ev : event) : bool :=
  match ev with
  | FindMediaImage _ => true
  | _ => false
  end.

Definition is_consultation (ev : event) : bool :=
  match ev with
  | Consulted _ => true
  | _ => false
  end.

(** The image lookups of a trace, its calls into Discord, and the
    collectors it consulted, in order. *)
Definition lookups (tr : list event) : nat := List.length (filter is_lookup tr).

Definition requests (tr : list event) : list event := filter is_backend tr.

Definition collectors (tr : list event) : list collector :=
  flat_map (fun ev => match ev with
                      | Consulted c => [c]
                      | _ => []
                      end) tr.

(** [m] relates every store to the one it leaves, whether it returns or
    raises. *)
Definition keeps (R : State -> State -> Prop) {A : Type} (m : Py State A) : Prop :=
  forall st, R st (snd (m st)).


Definition same_media (st st' : State) : Prop :=
  current_media st' = current_media st.

Definition same_time (st st' : State) : Prop :=
  start_timestamp st' = start_timestamp st.

Definition client_stays (st st' : State) : Prop :=
  is_some (rpc st) = true -> is_some (rpc st') = true.

(** The trace grows by events that satisfy [Q]. *)
Definition extends (Q : event -> bool) (st st' : State) : Prop :=
  exists evs, trace st' = (trace st ++ evs)%list /\ forallb Q evs = true.

Definition any_event (ev : event) : Prop := True.

Definition record_all (evs : list event) (st : State) : State :=
  fold_left (fun s ev => record ev s) evs st.

Definition without_media (st : State) : State :=
  mkState None (start_timestamp st) (rpc st) (trace st).

Definition with_time (st : State) (v : option Z) : State :=
  mkState (current_media st) v (rpc st) (trace st).

Definition with_media (st : State) (v : option Media) : State :=
  mkState v (start_timestamp st) (rpc st) (trace st).

(** A synchronization is due: the content differs from the snapshot, or
    the refresh timer fires. *)
Definition sync_due (E : Env) (st : State) (m : Media) : bool :=
  content_changed m (current_media st)
  || force_update_due (time_time (world E)) (start_timestamp st).

(** The condition under which [start_timestamp] is assigned. *)
Definition timestamp_reset (E : Env) (st : State) : bool :=
  negb (force_update_due (time_time (world E)) (start_timestamp st))
  || negb (truthy_time (start_timestamp st)).

Definition service_changed_from (st : State) (m : Media) : bool :=
  match current_media st with
  | Some cm => negb (String.eqb (service cm) (service m))
  | None => false
  end.

(** The store a cycle starts from, and the store after the cascade. *)
Definition start_of (st : State) : State :=
  mkState (current_media st) (start_timestamp st) (rpc st) [].

Definition after_collect (E : Env) (st : State) : State :=
  record_all (map Consulted (consulted_by (world E))) (start_of st).

(** ** Scenarios *)

(** Worlds given by a table of windows; every window is visible. *)
Definition lookup_window (table : list Window) (h : Z) : option Window :=
  find (fun w => Z.eqb (hwnd w) h) table.

Definition world_of (procs : list Proc) (table : list Window)
           (foreground : Z) (now : Z) : World :=
  mkWorld procs (map hwnd table)
          (fun h => match lookup_window table h with
                    | Some w => w_title w
                    | None => EmptyString
                    end)
          (fun h => match lookup_window table h with
                    | Some w => process_name w
                    | None => None
                    end)
          foreground
          (fun _ => true)
          now.

(** The Netflix application with one window, in the foreground. *)
Definition netflix_world (window_title : string) (now : Z) : World :=
  world_of [mkProc "Netflix.exe" []]
           [mkWindow 10 window_title (Some "Netflix.exe")] 10 now.

(** Nothing that streams. *)
Definition idle_world (now : Z) : World := world_of [] [] 0 now.

(** The Disney+ application showing a page whose title starts with
    [readme]. *)
Definition readme_world : World :=
  world_of [mkProc "Disney+.exe" []]
           [mkWindow 5 "readme notes - Disney+" (Some "Disney+.exe")] 5 2000.

(** A desktop with the shell and a text editor whose document mentions
    Disney+. *)
Definition explorer_proc : Proc := mkProc "explorer.exe" ["explorer.exe"].
Definition notes_window : Window :=
  mkWindow 7 "Disney+ price list - Notepad" (Some "notepad.exe").
Definition explorer_world : World :=
  world_of [explorer_proc] [notes_window] 7 3000.

(** Chrome with a Netflix tab. *)
Definition chrome_window : Window :=
  mkWindow 3 "Stranger Things - Netflix - Google Chrome" (Some "chrome.exe").
Definition chrome_world : World :=
  world_of [mkProc "chrome.exe" []] [chrome_window] 3 4000.

(** A Chrome window that shows the address of Netflix and not its name. *)
Definition address_window : Window :=
  mkWindow 8 "netflix.com/browse - Google Chrome" (Some "chrome.exe").

Definition address_world : World :=
  world_of [mkProc "chrome.exe" []] [address_window] 8 4000.

(** The first process of the table has gone when its name is read. *)
Definition vanished_process : Faults :=
  mkFaults None
           (fun i => match i with
                     | O => Some (PsutilError "process no longer exists")
                     | S _ => None
                     end).

(** A read of the native-app collector raises. *)
Definition window_read_fails : Faults :=
  mkFaults (Some (Win32Error "EnumWindows")) (fun _ => None).

(** Answers of Discord. *)
Definition always_done : list event -> outcome := fun _ => Done.

Definition is_update (ev : event) : bool :=
  match ev with
  | Update _ _ => true
  | _ => false
  end.

(** The first [rpc.update] times out on the pipe; every other call
    returns. *)
Definition timeout_once : list event -> outcome :=
  fun history =>
    match rev history with
    | Update _ _ :: earlier =>
        if existsb is_update earlier then Done else Fails pipe_timeout
    | _ => Done
    end.

(** Every [rpc.update] fails. *)
Definition updates_fail : list event -> outcome :=
  fun history =>
    match rev history with
    | Update _ _ :: _ => Fails "Connection lost"
    | _ => Done
    end.

(** Discord is not running: no client object can be built. *)
Definition no_discord : list event -> outcome :=
  fun history =>
    match rev history with
    | NewPresence _ :: _ => Fails "Could not find Discord installed and running"
    | _ => Done
    end.

Definition no_image : string -> string -> option Z -> option Z -> option string :=
  fun _ _ _ _ => None.

(** Three distinct client identities: default, Disney+, Netflix. *)
Definition env_of (W : World) (answers : list event -> outcome) : Env :=
  mkEnv W "111" "222" "333" answers no_image.

Definition episode1 : string := "Netflix - Show A: S1:E1 Pilot".
Definition episode2 : string := "Netflix - Show A: S1:E2 Second".

(** The title of the Netflix application in a window whose process is
    none of those the system-process collector looks for. *)
Definition netflix_window_world : World :=
  world_of [] [mkWindow 2 episode1 (Some "Netflix.exe")] 2 5000.

Definition show_a_episode1 : Media :=
  mkMedia "Show A" "Netflix" "show" (Some 1%Z) (Some 1%Z) (Some "Pilot") true.
Definition show_a_episode2 : Media :=
  mkMedia "Show A" "Netflix" "show" (Some 1%Z) (Some 2%Z) (Some "Second") true.

(** Start of the program with Discord not running: no snapshot, no start
    time, no client object. *)
Definition offline : State := mkState None None None [].

(** The globals after a first cycle at time 1000 that found episode 1 and
    pushed it under the Netflix identity. *)
Definition watching_episode1 : State :=
  start_of (cycle (env_of (netflix_world episode1 1000) always_done) offline).


(** A record found by the system-process collector whose title would match
    the ignore list. *)
Definition discord_settings : Media :=
  mkMedia "Discord settings" "Netflix" "movie" None None None true.

(** The payloads pushed for the two episodes. *)
Definition basic_episode1 : Activity :=
  mkActivity "Show A" "S1:E1 - Pilot" "netflix" None None None [].
Definition full_episode1 : Activity :=
  mkActivity "Show A" "S1:E1 - Pilot" "netflix" None None
             (Some "Watching on Netflix")
             [("Watch on Netflix", "https://www.netflix.com")].
Definition basic_episode2 : Activity :=
  mkActivity "Show A" "S1:E2 - Second" "netflix" None None None [].

(** [all(p(ch) for ch in s)] *)
Fixpoint all_chars (p : ascii -> bool) (s : string) : bool :=
  match s with
  | EmptyString => true
  | String ch s' => p ch && all_chars p s'
  end.

(** A repetition of the class [p] cannot go on into [s]. *)
Definition stops (p : ascii -> bool) (s : string) : bool :=
  match s with
  | EmptyString => true
  | String ch _ => negb (p ch)
  end.

Definition is_newline (ch : ascii) : bool := Ascii.eqb ch "010"%char.

Definition is_dot (ch : ascii) : bool := negb (Ascii.eqb ch "010"%char).


Definition no_colon (ch : ascii) : bool := negb (Ascii.eqb ch ":"%char).


Definition is_dash (ch : ascii) : bool := Ascii.eqb ch "-"%char.

Definition no_dash (ch : ascii) : bool := negb (Ascii.eqb ch "-"%char).




(** The title a parser works on once the leading brand is cut. *)
Definition without_prefix (brand title : string) : string :=
  if PyStr.startswith title brand
  then PyStr.drop (String.length brand) title else title.




(** The text the Disney+ parser matches: the leading brand cut, the
    brandings removed, the result stripped. *)
Definition disney_cleaned (title : string) : string :=
  PyStr.strip (remove_all disney_brandings (without_prefix "Disney+ - " title)).

(** Discord answers every call. *)
Definition answers_all (E : Env) : Prop := forall history, discord E history = Done.

(** An event without its payload. *)
Definition blank : Activity :=
  mkActivity EmptyString EmptyString EmptyString None None None [].

Definition erase (ev : event) : event :=
  match ev with
  | Update id _ => Update id blank
  | _ => ev
  end.

(** The image key [find_media_image] returns for a record. *)
Definition image_key_of (E : Env) (m : Media) : option string :=
  match fst (find_media_image E m (mkState None None None [])) with
  | inl k => k
  | inr _ => None
  end.

(** The requests of a push under the identity [id]: the basic update, the
    update with the thumbnail when there is an image, and the update with
    the button, each of the last two after a pause of one second. *)
Definition push_shape (id : string) (artwork : bool) : list event :=
  ([Update id blank]
   ++ (if artwork then [Sleep 1000; Update id blank] else [])
   ++ [Sleep 1000; Update id blank])%list.

(** The requests that replace the connection of [old] by one under
    [id]. *)
Definition switch_shape (old id : string) : list event :=
  [Clear old; Close old; NewPresence id; Connect id].

(** The updates attempted in a list of events. *)
Definition updates (evs : list event) : nat := List.length (filter is_update evs).

(** The pause that precedes the thumbnail update and the button update. *)
Definition is_tier_pause (ev : event) : bool :=
  match ev with
  | Sleep 1000 => true
  | _ => false
  end.

(** What Discord accepts of a payload, as far as the program takes care of
    it: details and thumbnail text of at most 100 characters, one of the
    two uploaded image keys, a thumbnail given by an address, at most one
    button. *)
Definition discord_ready (a : Activity) : bool :=
  (String.length (details a) <=? 100)%nat
  && mem_str (large_image a) ["netflix"; "disney"]
  && match small_image a with
     | Some url => PyStr.startswith url "http"
     | None => true
     end
  && match small_text a with
     | Some t => (String.length t <=? 100)%nat
     | None => true
     end
  && (List.length (buttons a) <=? 1)%nat.

(** The texts a poll reads hold ASCII characters only: there the strings
    of the program are those of the model, character by character. *)
Definition ascii_window (W : World) (h : Z) : bool :=
  PyStr.is_ascii (GetWindowText W h)
  && match get_process_name_by_hwnd W h with
     | Some name => PyStr.is_ascii name
     | None => true
     end.

Definition ascii_world (W : World) : bool :=
  forallb (ascii_window W) (GetForegroundWindow W :: EnumWindows W)
  && forallb (fun proc => PyStr.is_ascii (proc_name proc)
                          && forallb PyStr.is_ascii (cmdline proc))
             (process_iter W).

Definition payload_ready (ev : event) : bool :=
  match ev with
  | Update _ a => discord_ready a
  | _ => true
  end.

(** Disney+ in the background, enumerated first, and Netflix in the
    foreground. *)
Definition two_apps_world : World :=
  world_of []
           [mkWindow 1 "Loki - S01E01 - Disney+" (Some "Disney+.exe");
            mkWindow 2 episode1 (Some "Netflix.exe")] 2 5000.

(** The Disney+ process without any window. *)
Definition disney_background_world : World :=
  world_of [mkProc "Disney+.exe" []] [] 0 6000.

(** A browser window that shows several tabs, one of them Netflix. *)
Definition tabs_window : Window :=
  mkWindow 4 "Netflix and 3 more pages - Personal - Microsoft Edge"
           (Some "msedge.exe").
Definition tabs_world : World := world_of [] [tabs_window] 4 7000.

(** The globals at the start with a client object of the default
    identity. *)
Definition connected : State := mkState None None (Some (mkPresence "111")) [].

(** The globals while an episode of Disney+ is shown under the Disney+
    identity. *)
Definition watching_disney : State :=
  mkState (Some (mkMedia "Loki" "Disney+" "show" (Some 1%Z) (Some 1%Z) None false))
          (Some 900%Z) (Some (mkPresence "222")) [].

(** The time spent in [time.sleep], in milliseconds, and the client
    objects built. *)
Definition slept (evs : list event) : nat :=
  list_sum (map (fun ev => match ev with Sleep ms => ms | _ => 0 end) evs).

Definition is_construction (ev : event) : bool :=
  match ev with
  | NewPresence _ => true
  | _ => false
  end.

Definition constructions (evs : list event) : nat :=
  List.length (filter is_construction evs).

(** Every call into Discord fails with the same message. *)
Definition refuses_all (E : Env) (msg : string) : Prop :=
  forall history, discord E history = Fails msg.

(** A client object can be built, but no connection opened. *)
Definition refuses_connections (E : Env) (msg : string) : Prop :=
  (forall history id, discord E (history ++ [NewPresence id]) = Done)
  /\ (forall history id, discord E (history ++ [Connect id]) = Fails msg).

Definition connections_fail : list event -> outcome :=
  fun history =>
    match rev history with
    | Connect _ :: _ => Fails "Connection refused"
    | _ => Done
    end.

Definition all_fail : list event -> outcome :=
  fun _ => Fails "Could not find Discord installed and running".

(** The retry schedule: a construction per turn, two where the message
    names [create_pipe_connection] and a turn is left, and the pauses
    between the turns. *)
Definition retry_schedule (id : string) (alternative : bool) : list event :=
  let turn := if alternative then [NewPresence id; NewPresence id]
              else [NewPresence id] in
  (turn ++ [Sleep (1000 * 2)] ++ turn ++ [Sleep (1000 * 4)]
        ++ turn ++ [Sleep (1000 * 8)] ++ turn ++ [Sleep (1000 * 16)]
        ++ [NewPresence id])%list.

(** A desktop on which Discord runs. *)
Definition discord_world : World := world_of [mkProc "Discord.exe" []] [] 0 100.


(** A poll that an exception leaves. *)
Definition poll_fails (poll : Faults * Env) : bool :=
  match escaping (fst poll) (world (snd poll)) with
  | Some _ => true
  | None => false
  end.



(** The Netflix address in Chrome at each poll, the process gone each
    time its name is read. *)
Definition failing_poll : Faults * Env :=
  (vanished_process, env_of address_world always_done).

(** What a turn has done when it is over. *)
Definition turn_done (E : Env) (retry_count : nat) (st : State)
           (r : option bool) (st' : State) : Prop :=
  exists evs,
    trace st' = (trace st ++ evs)%list
    /\ current_media st' = current_media st
    /\ start_timestamp st' = start_timestamp st
    /\ constructions evs <= (if (S retry_count <? max_retries)%nat then 2 else 1)
    /\ match r with
       | Some true =>
           slept evs = 0
           /\ rpc st' = Some (mkPresence (DISCORD_CLIENT_ID E))
           /\ discord E (trace st') = Done
           /\ exists earlier,
                trace st' = (earlier ++ [Connect (DISCORD_CLIENT_ID E)])%list
       | Some false => slept evs = 0 /\ max_retries <= S retry_count
       | None => slept evs = 1000 * 2 ^ S retry_count
                 /\ S retry_count < max_retries
       end.

(** * Properties *)

(** ** Strings *)

Lemma contains_nonempty (sub s : string) :
  sub <> EmptyString -> PyStr.contains sub s = true -> PyStr.truthy s = true.
Proof.
  intros Hsub H. destruct s as [|c s]; [|reflexivity].
  destruct sub as [|d sub]; [congruence|]. discriminate H.
Qed.

Lemma lower_nonempty (s : string) :
  PyStr.truthy (PyStr.lower s) = true -> PyStr.truthy s = true.
Proof. destruct s; [discriminate|reflexivity]. Qed.

(** ** The title parser *)

(** C9.  The Netflix parser splits ["Stranger Things: S1:E1 Chapter One"]
    into the show "Stranger Things", season 1, episode 1 and the episode
    title "Chapter One". *)
Theorem parse_netflix_title_stranger_things :
  parse_netflix_title "Stranger Things: S1:E1 Chapter One"
  = mkParsed "Stranger Things" "show" (Some 1%Z) (Some 1%Z) (Some "Chapter One").
Proof. vm_compute. reflexivity. Qed.

(** ** The system-process collector *)

Section SystemProcesses.
Variable W : World.




End SystemProcesses.

(** A record marked by the system-process collector skips the ignore
    list: only the first filter decides. *)
Lemma classify_by_system (m : Media) :
  detected_by_system m = true ->
  classify (Watching m) = blanket_filter (Watching m).
Proof.
  intro Hsys. unfold classify.
  destruct (blanket_filter (Watching m)) as [|m'] eqn:Hb; [reflexivity|].
  assert (Hm : m' = m).
  { unfold blanket_filter in Hb.
    repeat match type of Hb with
           | (if ?c then _ else _) = _ => destruct c
           end; congruence. }
  rewrite Hm, Hsys. reflexivity.
Qed.



(** On that desktop the title of the text editor reaches the state
    machine as Disney+ content, though the ignore list names the editor. *)
Example notepad_shown_as_disney :
  is_false_positive (mkMedia "price list - Notepad" "Disney+" "movie"
                             None None None true) = true
  /\ fused explorer_world
     = Watching (mkMedia "price list - Notepad" "Disney+" "movie"
                         None None None true).
Proof. vm_compute. split; reflexivity. Qed.

(** ** The browser-tab collector *)

Lemma stuck_ret {A : Type} (a : A) : stuck (ret a).
Proof. left. exists a. reflexivity. Qed.

Lemma call_unbound {B : Type} (title service : string)
      (k : string -> Py BrowserLocals B) :
  bind (call_clean_title_local title service) k fresh_locals
  = (inr (UnboundLocalError "clean_title"), fresh_locals).
Proof. reflexivity. Qed.

Lemma stuck_bind_call {B : Type} (title service : string)
      (k : string -> Py BrowserLocals B) :
  stuck (bind (call_clean_title_local title service) k).
Proof. right. apply call_unbound. Qed.

Create HintDb browser.
#[local] Hint Resolve stuck_ret stuck_bind_call : browser.

Ltac split_conditions :=
  repeat match goal with
         | |- context [if ?c then _ else _] => destruct c
         end.

Lemma first_pass_stuck (W : World) (browser_process : string) (w : Window) :
  stuck (first_pass W browser_process w).
Proof. unfold first_pass. cbv zeta. split_conditions; auto with browser. Qed.

Lemma second_pass_stuck (W : World) (browser_process : string) (w : Window) :
  stuck (second_pass W browser_process w).
Proof. unfold second_pass. cbv zeta. split_conditions; auto with browser. Qed.

Lemma for_each_stuck {A : Type} (body : A -> Py BrowserLocals unit) (l : list A) :
  (forall x, stuck (body x)) -> stuck (for_each l body).
Proof.
  intros Hbody. induction l as [|x l IH]; cbn [for_each].
  - apply stuck_ret.
  - destruct (Hbody x) as [[[] Hx]|Hx].
    + destruct IH as [[a Hl]|Hl].
      * left. exists a. unfold bind. rewrite Hx. exact Hl.
      * right. unfold bind. rewrite Hx. exact Hl.
    + right. unfold bind. rewrite Hx. reflexivity.
Qed.

(** A loop whose bodies leave the fresh locals alone raises as soon as one
    of them does. *)
Lemma for_each_raises {A : Type} (body : A -> Py BrowserLocals unit) (l : list A)
      (x : A) :
  (forall y, stuck (body y)) ->
  In x l ->
  body x fresh_locals = (inr (UnboundLocalError "clean_title"), fresh_locals) ->
  for_each l body fresh_locals
  = (inr (UnboundLocalError "clean_title"), fresh_locals).
Proof.
  intros Hbody Hin Hx. induction l as [|y l IH]; [contradiction|].
  cbn [for_each]. unfold bind. destruct (Hbody y) as [[[] Hy]|Hy]; rewrite Hy.
  - destruct Hin as [Heq|Hin].
    + subst y. rewrite Hx in Hy. discriminate Hy.
    + exact (IH Hin).
  - reflexivity.
Qed.

(** The two loops either complete or raise at the call of the local
    [clean_title], and leave the locals fresh. *)
Lemma passes_stuck (W : World) (browser_process : string) :
  stuck (passes W browser_process).
Proof.
  unfold passes.
  pose proof (for_each_stuck _ (get_all_windows W)
                (first_pass_stuck W browser_process)) as H1.
  pose proof (for_each_stuck _ (get_all_windows W)
                (second_pass_stuck W browser_process)) as H2.
  unfold bind.
  destruct H1 as [[[] H1]|H1].
  - destruct H2 as [[[] H2]|H2].
    + left. exists tt. rewrite H1. exact H2.
    + right. rewrite H1. exact H2.
  - right. rewrite H1. reflexivity.
Qed.

(** The handler of a browser swallows the error: the scan of a browser
    leaves the locals fresh, and only the exception of a name read leaves
    it. *)
Lemma scan_browser_fresh (F : Faults) (W : World) (browser : string * string) :
  scan_browser F W browser fresh_locals
  = (match browser_running F W (fst browser) with
     | inl _ => inl tt
     | inr e => inr e
     end, fresh_locals).
Proof.
  unfold scan_browser, bind at 1, lift. cbv zeta.
  destruct (browser_running F W (fst browser)) as [[|]|e]; [|reflexivity..].
  fold (passes W (fst browser)). unfold try_except.
  destruct (passes_stuck W (fst browser)) as [[[] H]|H]; rewrite H; reflexivity.
Qed.

Lemma browsers_fresh (F : Faults) (W : World) (browsers : list (string * string)) :
  for_each browsers (scan_browser F W) fresh_locals
  = (match first_failure F W browsers with
     | Some e => inr e
     | None => inl tt
     end, fresh_locals).
Proof.
  induction browsers as [|b bs IH]; cbn [for_each first_failure]; [reflexivity|].
  unfold bind. rewrite scan_browser_fresh.
  destruct (browser_running F W (fst b)); [exact IH|reflexivity].
Qed.

Lemma check_browser_tabs_eq (F : Faults) (W : World) :
  check_browser_tabs F W
  = match failing_scan F W with
    | Some e => inr e
    | None => inl None
    end.
Proof.
  unfold check_browser_tabs, check_browser_tabs_body, bind at 1, failing_scan.
  fold fresh_locals. rewrite browsers_fresh.
  destruct (first_failure F W SUPPORTED_BROWSERS); reflexivity.
Qed.

Lemma name_scan_returns (W : World) (browser_process : string) (i : nat)
      (procs : list Proc) :
  name_scan no_faults browser_process i procs
  = inl (existsb (fun proc => same_process (proc_name proc) browser_process) procs).
Proof.
  revert i. induction procs as [|p ps IH]; intro i; cbn [name_scan existsb];
    [reflexivity|].
  cbn [no_faults name_raises].
  destruct (same_process (proc_name p) browser_process); [reflexivity|apply IH].
Qed.

Lemma first_failure_none (W : World) (browsers : list (string * string)) :
  first_failure no_faults W browsers = None.
Proof.
  induction browsers as [|b bs IH]; cbn [first_failure]; [reflexivity|].
  unfold browser_running. rewrite (name_scan_returns W). exact IH.
Qed.

Lemma check_browser_tabs_none (W : World) : check_browser_tabs no_faults W = inl None.
Proof.
  rewrite check_browser_tabs_eq. unfold failing_scan.
  rewrite first_failure_none. reflexivity.
Qed.

Lemma doc_markers_cover_readme (title : string) :
  any_in doc_markers (PyStr.lower title) = false -> is_readme title = false.
Proof.
  unfold any_in, doc_markers, is_readme. cbn [existsb].
  destruct (PyStr.contains "readme" (PyStr.lower title)); [discriminate|].
  destruct (PyStr.contains ".md" (PyStr.lower title)); [discriminate|].
  reflexivity.
Qed.

Lemma first_pass_raises (W : World) (browser_process : string) (w : Window) :
  reaches_call browser_process w = true ->
  first_pass W browser_process w fresh_locals
  = (inr (UnboundLocalError "clean_title"), fresh_locals).
Proof.
  unfold reaches_call. intro H.
  apply andb_prop in H. destruct H as [H Hsvc].
  apply andb_prop in H. destruct H as [H Hdoc].
  apply andb_prop in H. destruct H as [Hpn Hsame].
  apply negb_true_iff in Hdoc.
  assert (Htitle : PyStr.truthy (w_title w) = true).
  { apply orb_prop in Hsvc. destruct Hsvc as [Hsvc|Hsvc].
    - apply orb_prop in Hsvc. destruct Hsvc as [Hn|Hd].
      + apply (contains_nonempty "Netflix"); [discriminate|exact Hn].
      + apply lower_nonempty.
        apply (contains_nonempty "disney+"); [discriminate|exact Hd].
    - apply lower_nonempty.
      apply (contains_nonempty "disneyplus"); [discriminate|exact Hsvc]. }
  unfold first_pass. cbv zeta.
  rewrite Hpn, Htitle, Hsame, Hdoc, (doc_markers_cover_readme _ Hdoc).
  cbn [negb orb].
  destruct (PyStr.contains " - Netflix" (w_title w)
            || PyStr.contains "Netflix" (w_title w)) eqn:Hnet.
  - apply call_unbound.
  - apply orb_false_elim in Hnet. destruct Hnet as [_ Hnet].
    rewrite Hnet in Hsvc. cbn [orb existsb] in Hsvc |- *.
    change (PyStr.lower "Disney+") with "disney+".
    change (PyStr.lower "disneyplus") with "disneyplus".
    rewrite orb_false_r. rewrite Hsvc. apply call_unbound.
Qed.

Lemma second_pass_raises (W : World) (browser_process : string) (w : Window) :
  shows_address browser_process w = true ->
  second_pass W browser_process w fresh_locals
  = (inr (UnboundLocalError "clean_title"), fresh_locals).
Proof.
  unfold shows_address. intro H.
  apply andb_prop in H. destruct H as [H Hurl].
  apply andb_prop in H. destruct H as [Hpn Hsame].
  assert (Htitle : PyStr.truthy (w_title w) = true).
  { apply lower_nonempty.
    apply orb_prop in Hurl. destruct Hurl as [Hurl|Hn].
    - apply orb_prop in Hurl. destruct Hurl as [Hd|Hd].
      + apply (contains_nonempty "disneyplus.com"); [discriminate|exact Hd].
      + apply (contains_nonempty "disney+"); [discriminate|exact Hd].
    - apply (contains_nonempty "netflix.com"); [discriminate|exact Hn]. }
  unfold second_pass. cbv zeta.
  rewrite Hpn, Htitle, Hsame. cbn [negb orb].
  destruct (PyStr.contains "disneyplus.com" (PyStr.lower (w_title w))
            || PyStr.contains "disney+" (PyStr.lower (w_title w))) eqn:Hd.
  - apply call_unbound.
  - try rewrite Hd in Hurl. cbn [orb] in Hurl. rewrite Hurl. apply call_unbound.
Qed.

(** Where a window of the browser matches by its title or by an address,
    the two loops raise and append nothing. *)
Lemma passes_raise (W : World) (browser_process : string) :
  existsb (fun w => reaches_call browser_process w || shows_address browser_process w)
          (get_all_windows W) = true ->
  passes W browser_process fresh_locals
  = (inr (UnboundLocalError "clean_title"), fresh_locals).
Proof.
  intro H. apply existsb_exists in H. destruct H as [w [Hin Hw]].
  unfold passes, bind.
  destruct (for_each_stuck _ (get_all_windows W)
              (first_pass_stuck W browser_process)) as [[[] H1]|H1];
    rewrite H1; [|reflexivity].
  apply orb_prop in Hw. destruct Hw as [Hw|Hw].
  - rewrite (for_each_raises _ _ w (first_pass_stuck W browser_process) Hin
               (first_pass_raises W browser_process w Hw)) in H1.
    discriminate H1.
  - exact (for_each_raises _ _ w (second_pass_stuck W browser_process) Hin
             (second_pass_raises W browser_process w Hw)).
Qed.

(** C4, as the code has it.  The browser-tab collector never returns a
    record: it returns [None], unless a read of a process name in the scan
    that precedes the [try] raises, and then that exception leaves it.
    With the reads returning it returns [None] in every world.  Each
    window either is skipped or raises [UnboundLocalError] at the call of
    the local [clean_title]; a window that matches by its title raises in
    the first loop, one that matches by an address raises in the second;
    where a window of a running browser matches, the two loops raise with
    nothing appended, and the handler of the browser swallows it. *)
Theorem check_browser_tabs_never_detects (F : Faults) (W : World) :
  check_browser_tabs F W
  = match failing_scan F W with
    | Some e => inr e
    | None => inl None
    end
  /\ check_browser_tabs no_faults W = inl None
  /\ (forall browser,
         scan_browser F W browser fresh_locals
         = (match browser_running F W (fst browser) with
            | inl _ => inl tt
            | inr e => inr e
            end, fresh_locals))
  /\ (forall browser_process w,
         stuck (first_pass W browser_process w)
         /\ stuck (second_pass W browser_process w))
  /\ (forall browser_process w,
         reaches_call browser_process w = true ->
         first_pass W browser_process w fresh_locals
         = (inr (UnboundLocalError "clean_title"), fresh_locals))
  /\ (forall browser_process w,
         shows_address browser_process w = true ->
         second_pass W browser_process w fresh_locals
         = (inr (UnboundLocalError "clean_title"), fresh_locals))
  /\ (forall browser_process,
         existsb (fun w => reaches_call browser_process w
                           || shows_address browser_process w)
                 (get_all_windows W) = true ->
         passes W browser_process fresh_locals
         = (inr (UnboundLocalError "clean_title"), fresh_locals)).
Proof.
  split; [apply check_browser_tabs_eq|].
  split; [apply check_browser_tabs_none|].
  split; [apply scan_browser_fresh|].
  split.
  { intros b w. split; [apply first_pass_stuck|apply second_pass_stuck]. }
  split; [apply first_pass_raises|].
  split; [apply second_pass_raises|apply passes_raise].
Qed.

(** Chrome on a Netflix tab: the window raises in the first loop, the two
    loops raise, and nothing is detected. *)
Lemma check_browser_tabs_never_detects_witness :
  check_browser_tabs no_faults chrome_world = inl None
  /\ first_pass chrome_world "chrome.exe" chrome_window fresh_locals
     = (inr (UnboundLocalError "clean_title"), fresh_locals)
  /\ second_pass chrome_world "chrome.exe" address_window fresh_locals
     = (inr (UnboundLocalError "clean_title"), fresh_locals)
  /\ passes chrome_world "chrome.exe" fresh_locals
     = (inr (UnboundLocalError "clean_title"), fresh_locals).
Proof.
  destruct (check_browser_tabs_never_detects no_faults chrome_world)
    as [_ [H2 [_ [_ [H5 [H6 H7]]]]]].
  split; [exact H2|].
  split; [apply H5; reflexivity|].
  split; [apply H6; reflexivity|apply H7; reflexivity].
Defined.

(** The claim as the specification has it fails where a process has gone
    by the time its name is read: the exception of [psutil] leaves the
    collector, which returns nothing at all. *)
Theorem check_browser_tabs_raises_on_vanished_process :
  check_browser_tabs vanished_process chrome_world
  = inr (PsutilError "process no longer exists").
Proof. reflexivity. Qed.

(** ** Frames of the effectful code *)

Lemma bind_returns {S A B : Type} (m : Py S A) (k : A -> Py S B) (st : S) (a : A) :
  fst (m st) = inl a -> bind m k st = k a (snd (m st)).
Proof. unfold bind. destruct (m st) as [[x|e] st']; cbn; congruence. Qed.

Lemma try_unit_returns {S : Type} (m : Py S unit) (st : S) :
  fst (try_except m (fun _ => ret tt) st) = inl tt.
Proof. unfold try_except. destruct (m st) as [[[]|e] st']; reflexivity. Qed.

Section Frame.
Variable R : State -> State -> Prop.
Variable P : event -> Prop.
Hypothesis R_refl : forall st, R st st.
Hypothesis R_trans : forall a b c, R a b -> R b c -> R a c.
Hypothesis R_record : forall ev st, P ev -> R st (record ev st).
Hypothesis R_set_rpc :
  forall p st,
    R st (mkState (current_media st) (start_timestamp st) (Some p) (trace st)).
Hypothesis P_backend : forall ev, is_backend ev = true -> P ev.

Lemma keeps_ret {A : Type} (a : A) : keeps R (ret a).
Proof. intro st. apply R_refl. Qed.

Lemma keeps_raise {A : Type} (e : exc) : keeps R (@raise State A e).
Proof. intro st. apply R_refl. Qed.

Lemma keeps_get : keeps R get.
Proof. intro st. apply R_refl. Qed.

Lemma keeps_bind {A B : Type} (m : Py State A) (k : A -> Py State B) :
  keeps R m -> (forall a, keeps R (k a)) -> keeps R (bind m k).
Proof.
  intros Hm Hk st. specialize (Hm st). unfold bind.
  destruct (m st) as [[a|e] st']; cbn in *.
  - apply R_trans with st'; [exact Hm|apply Hk].
  - exact Hm.
Qed.

Lemma keeps_try_except {A : Type} (m : Py State A) (h : exc -> Py State A) :
  keeps R m -> (forall e, keeps R (h e)) -> keeps R (try_except m h).
Proof.
  intros Hm Hh st. specialize (Hm st). unfold try_except.
  destruct (m st) as [[a|e] st']; cbn in *.
  - exact Hm.
  - apply R_trans with st'; [exact Hm|apply Hh].
Qed.

Lemma keeps_when (c : bool) (m : Py State unit) : keeps R m -> keeps R (when c m).
Proof. intro Hm. destruct c; [exact Hm|apply keeps_ret]. Qed.

Lemma keeps_emit (ev : event) : P ev -> keeps R (emit ev).
Proof. intros H st. apply R_record. exact H. Qed.

Lemma keeps_backend_call (E : Env) (ev : event) :
  is_backend ev = true -> keeps R (backend_call E ev).
Proof.
  intros H st. unfold backend_call.
  destruct (discord E (trace (record ev st))); cbn; apply R_record, P_backend, H.
Qed.

Lemma keeps_on_rpc (E : Env) (method : string -> event) :
  (forall id, is_backend (method id) = true) -> keeps R (on_rpc E method).
Proof.
  intro H. unfold on_rpc. apply keeps_bind; [apply keeps_get|].
  intro st. destruct (rpc st); [apply keeps_backend_call, H|apply keeps_raise].
Qed.

Lemma keeps_set_rpc (p : Presence) : keeps R (set_rpc (Some p)).
Proof. intro st. apply R_set_rpc. Qed.

Lemma keeps_new_presence (E : Env) (id : string) : keeps R (new_presence E id).
Proof.
  unfold new_presence. apply keeps_bind.
  - apply keeps_backend_call. reflexivity.
  - intros _. apply keeps_set_rpc.
Qed.

Ltac frame :=
  repeat first
    [ apply keeps_ret
    | apply keeps_raise
    | apply keeps_get
    | apply keeps_new_presence
    | apply keeps_on_rpc; intro; reflexivity
    | apply keeps_emit; apply P_backend; reflexivity
    | apply keeps_when
    | apply keeps_bind; [|intro]
    | apply keeps_try_except; [|intro]
    | match goal with
      | |- keeps _ (if ?c then _ else _) => destruct c
      | |- keeps _ (match ?x with _ => _ end) => destruct x
      end ].

Lemma keeps_reconnect_discord (E : Env) : keeps R (reconnect_discord E).
Proof. unfold reconnect_discord. frame. Qed.

Lemma keeps_update_presence (E : Env) (m : Media) (image_key : option string) :
  keeps R (update_presence E m image_key).
Proof.
  unfold update_presence. cbv zeta.
  apply keeps_bind.
  - apply keeps_try_except; [frame|]. intro e.
    destruct (PyStr.contains pipe_timeout (str_of_exc e)); [|frame].
    apply keeps_bind; [apply keeps_reconnect_discord|]. intro b. frame.
  - intro ok. frame.
Qed.

Lemma keeps_connect_for (E : Env) (m : Media) (service_changed : bool) :
  keeps R (connect_for E m service_changed).
Proof. unfold connect_for. frame. Qed.

Lemma keeps_find_media_image (E : Env) (m : Media) :
  P (FindMediaImage m) -> keeps R (find_media_image E m).
Proof.
  intro H. unfold find_media_image. cbv zeta.
  apply keeps_bind; [apply keeps_emit, H|]. intros _. apply keeps_ret.
Qed.

Lemma keeps_push (E : Env) (m : Media) :
  P (FindMediaImage m) -> keeps R (push E m).
Proof.
  intro H. unfold push. apply keeps_bind; [apply keeps_get|]. intro st.
  destruct (negb (is_some (rpc st))); [apply keeps_ret|].
  apply keeps_bind; [apply keeps_find_media_image, H|].
  intro k. apply keeps_update_presence.
Qed.

End Frame.

Lemma extends_refl (Q : event -> bool) (st : State) : extends Q st st.
Proof. exists []. split; [symmetry; apply app_nil_r|reflexivity]. Qed.

Lemma extends_trans (Q : event -> bool) (a b c : State) :
  extends Q a b -> extends Q b c -> extends Q a c.
Proof.
  intros [e1 [H1 F1]] [e2 [H2 F2]]. exists (e1 ++ e2)%list. split.
  - rewrite H2, H1. symmetry. apply app_assoc.
  - rewrite forallb_app, F1, F2. reflexivity.
Qed.

Lemma extends_record (Q : event -> bool) (ev : event) (st : State) :
  Q ev = true -> extends Q st (record ev st).
Proof. intro H. exists [ev]. split; [reflexivity|]. cbn. rewrite H. reflexivity. Qed.

Lemma extends_same_trace (Q : event -> bool) (st st' : State) :
  trace st' = trace st -> extends Q st st'.
Proof. intro H. exists []. rewrite H. split; [symmetry; apply app_nil_r|reflexivity]. Qed.

Create HintDb frame.
#[local] Hint Resolve extends_refl extends_trans extends_record : frame.
#[local] Hint Extern 1 (extends _ _ _) =>
  (apply extends_same_trace; reflexivity) : frame.

(** ** No exception leaves a cycle *)

Section Returns.
Context {S : Type}.







End Returns.








(** ** The cascade *)

(** The cascade in general: the record it selects, or the exception that
    leaves it, and the collectors it has consulted by then. *)
Lemma collect_under (F : Faults) (E : Env) (st : State) :
  collect F E st
  = (match escaping F (world E) with
     | Some e => inr e
     | None => inl (selected (world E))
     end,
     record_all (map Consulted (consulted_under F (world E))) st).
Proof.
  unfold collect, call_check_native_apps, selected, escaping, consulted_under.
  cbv zeta.
  destruct (check_system_processes (world E)) as [m|]; [reflexivity|].
  destruct (native_raises F) as [e|]; [reflexivity|].
  destruct (check_native_apps (world E)) as [m|]; [reflexivity|].
  rewrite check_browser_tabs_none, check_browser_tabs_eq.
  destruct (failing_scan F (world E)); reflexivity.
Qed.

Lemma escaping_no_faults (W : World) : escaping no_faults W = None.
Proof.
  unfold escaping, failing_scan. cbn [native_raises no_faults].
  destruct (check_system_processes W); [reflexivity|].
  destruct (check_native_apps W); [reflexivity|].
  apply first_failure_none.
Qed.

Lemma consulted_no_faults (W : World) : consulted_under no_faults W = consulted_by W.
Proof. reflexivity. Qed.

Lemma collect_eq (E : Env) (st : State) :
  collect no_faults E st
  = (inl (selected (world E)),
     record_all (map Consulted (consulted_by (world E))) st).
Proof.
  rewrite collect_under, escaping_no_faults, consulted_no_faults. reflexivity.
Qed.

Lemma detect_media_under (F : Faults) (E : Env) (st : State) :
  detect_media F E st
  = match escaping F (world E) with
    | Some e =>
        (inr e, record_all (map Consulted (consulted_under F (world E))) st)
    | None =>
        decide E (selected (world E))
               (record_all (map Consulted (consulted_under F (world E))) st)
    end.
Proof.
  unfold detect_media, bind. rewrite collect_under.
  destruct (escaping F (world E)); reflexivity.
Qed.

Lemma detect_media_eq (E : Env) (st : State) :
  detect_media no_faults E st
  = decide E (selected (world E))
           (record_all (map Consulted (consulted_by (world E))) st).
Proof. unfold detect_media, bind. rewrite collect_eq. reflexivity. Qed.

Lemma decide_classify (E : Env) (d : Detection) :
  decide E d
  = match classify d with
    | NotWatching => clear_presence E
    | Watching m => synchronize E m
    end.
Proof.
  unfold decide, classify. destruct (blanket_filter d) as [|m]; [reflexivity|].
  destruct (negb (detected_by_system m) && is_false_positive m); reflexivity.
Qed.


(** ** The state machine, block by block *)

(** Clearing: the snapshot goes, and the request is made when there is a
    client object, whatever Discord answers. *)
Lemma clear_presence_eq (E : Env) (st : State) :
  clear_presence E st
  = (inl tt,
     match current_media st, rpc st with
     | Some _, Some p => record (Clear (client_id p)) (without_media st)
     | Some _, None => without_media st
     | None, _ => st
     end).
Proof.
  unfold clear_presence, without_media, bind, get.
  destruct (current_media st) as [cm|]; [|reflexivity].
  cbn. unfold try_except, bind, get, on_rpc, bind, get. cbn.
  destruct (rpc st) as [p|]; [|reflexivity].
  unfold backend_call. cbn.
  destruct (discord E (trace st ++ [Clear (client_id p)])); reflexivity.
Qed.

Lemma connect_for_returns (E : Env) (m : Media) (changed : bool) (st : State) :
  fst (connect_for E m changed st) = inl tt.
Proof.
  unfold connect_for, bind at 1, get, when.
  destruct (changed || negb (is_some (rpc st))); [|reflexivity].
  destruct (is_some (rpc st)).
  - rewrite bind_returns with (a := tt) by apply try_unit_returns.
    apply try_unit_returns.
  - unfold bind at 1, ret. apply try_unit_returns.
Qed.

Lemma synchronize_idle (E : Env) (m : Media) (st : State) :
  sync_due E st m = false -> synchronize E m st = (inl tt, st).
Proof.
  unfold sync_due, synchronize, bind at 1, get. cbv zeta.
  intro H. rewrite H. reflexivity.
Qed.

Lemma synchronize_due (E : Env) (m : Media) (st : State) :
  sync_due E st m = true ->
  synchronize E m st
  = push E m
         (with_media
            (snd (connect_for E m (service_changed_from st m)
                              (if timestamp_reset E st
                               then with_time st (Some (time_time (world E)))
                               else st)))
            (Some m)).
Proof.
  unfold sync_due, synchronize, bind at 1, get. cbv zeta.
  intro H. rewrite H. fold (service_changed_from st m). fold (timestamp_reset E st).
  unfold when. set (changed := service_changed_from st m).
  set (st1 := if timestamp_reset E st
              then with_time st (Some (time_time (world E))) else st).
  assert (H1 : (if timestamp_reset E st
                then set_start_timestamp (Some (time_time (world E)))
                else ret tt) st = (inl tt, st1)).
  { unfold st1. destruct (timestamp_reset E st); reflexivity. }
  unfold bind at 1. rewrite H1.
  rewrite bind_returns with (a := tt) by apply connect_for_returns.
  reflexivity.
Qed.

Lemma connect_for_same_media (E : Env) (m : Media) (c : bool) (st : State) :
  current_media (snd (connect_for E m c st)) = current_media st.
Proof.
  apply (keeps_connect_for same_media any_event);
    unfold same_media, any_event; cbn; intros; try congruence; auto.
Qed.

Lemma connect_for_same_time (E : Env) (m : Media) (c : bool) (st : State) :
  start_timestamp (snd (connect_for E m c st)) = start_timestamp st.
Proof.
  apply (keeps_connect_for same_time any_event);
    unfold same_time, any_event; cbn; intros; try congruence; auto.
Qed.

Lemma push_same_media (E : Env) (m : Media) (st : State) :
  current_media (snd (push E m st)) = current_media st.
Proof.
  apply (keeps_push same_media any_event);
    unfold same_media, any_event; cbn; intros; try congruence; auto.
Qed.

Lemma push_same_time (E : Env) (m : Media) (st : State) :
  start_timestamp (snd (push E m st)) = start_timestamp st.
Proof.
  apply (keeps_push same_time any_event);
    unfold same_time, any_event; cbn; intros; try congruence; auto.
Qed.

Lemma update_presence_client_stays (E : Env) (m : Media) (k : option string)
      (st : State) :
  is_some (rpc st) = true -> is_some (rpc (snd (update_presence E m k st))) = true.
Proof.
  apply (keeps_update_presence client_stays any_event);
    unfold client_stays, any_event; cbn; intros; auto.
Qed.

Section TraceFrame.
Variable Q : event -> bool.
Hypothesis Q_backend : forall ev, is_backend ev = true -> Q ev = true.

Lemma connect_for_extends (E : Env) (m : Media) (c : bool) (st : State) :
  extends Q st (snd (connect_for E m c st)).
Proof.
  apply (keeps_connect_for (extends Q) (fun ev => Q ev = true));
    auto with frame; eauto with frame.
Qed.

Lemma update_presence_extends (E : Env) (m : Media) (k : option string)
      (st : State) :
  extends Q st (snd (update_presence E m k st)).
Proof.
  apply (keeps_update_presence (extends Q) (fun ev => Q ev = true));
    auto with frame; eauto with frame.
Qed.

Lemma push_extends (E : Env) (m : Media) (st : State) :
  Q (FindMediaImage m) = true -> extends Q st (snd (push E m st)).
Proof.
  intro H.
  apply (keeps_push (extends Q) (fun ev => Q ev = true));
    auto with frame; eauto with frame.
Qed.

Lemma clear_presence_extends (E : Env) (st : State) :
  extends Q st (snd (clear_presence E st)).
Proof.
  rewrite clear_presence_eq. cbn [snd].
  destruct (current_media st) as [cm|]; [|apply extends_refl].
  destruct (rpc st) as [p|].
  - exists [Clear (client_id p)]. split; [reflexivity|].
    cbn. rewrite Q_backend by reflexivity. reflexivity.
  - apply extends_same_trace. reflexivity.
Qed.

Lemma synchronize_extends (E : Env) (m : Media) (st : State) :
  Q (FindMediaImage m) = true -> extends Q st (snd (synchronize E m st)).
Proof.
  intro H. destruct (sync_due E st m) eqn:Hdue.
  - rewrite synchronize_due by exact Hdue.
    eapply extends_trans; [|apply push_extends; exact H].
    eapply extends_trans; [|apply extends_same_trace; reflexivity].
    eapply extends_trans; [|apply connect_for_extends].
    apply extends_same_trace. destruct (timestamp_reset E st); reflexivity.
  - rewrite synchronize_idle by exact Hdue. apply extends_refl.
Qed.

Lemma decide_extends (E : Env) (d : Detection) (st : State) :
  (forall m, Q (FindMediaImage m) = true) ->
  extends Q st (snd (decide E d st)).
Proof.
  intro H. rewrite decide_classify. destruct (classify d) as [|m].
  - apply clear_presence_extends.
  - apply synchronize_extends, H.
Qed.

End TraceFrame.

(** ** A poll cycle as a whole *)

Lemma record_all_fields (evs : list event) (st : State) :
  current_media (record_all evs st) = current_media st
  /\ start_timestamp (record_all evs st) = start_timestamp st
  /\ rpc (record_all evs st) = rpc st
  /\ trace (record_all evs st) = (trace st ++ evs)%list.
Proof.
  revert st. induction evs as [|ev evs IH]; intro st; cbn [record_all fold_left].
  - repeat split. symmetry. apply app_nil_r.
  - destruct (IH (record ev st)) as [H1 [H2 [H3 H4]]]. unfold record_all in *.
    rewrite H1, H2, H3, H4. cbn. repeat split.
    rewrite <- app_assoc. reflexivity.
Qed.

Lemma after_collect_fields (E : Env) (st : State) :
  current_media (after_collect E st) = current_media st
  /\ start_timestamp (after_collect E st) = start_timestamp st
  /\ rpc (after_collect E st) = rpc st
  /\ trace (after_collect E st) = map Consulted (consulted_by (world E)).
Proof.
  unfold after_collect.
  destruct (record_all_fields (map Consulted (consulted_by (world E))) (start_of st))
    as [H1 [H2 [H3 H4]]].
  rewrite H1, H2, H3, H4. repeat split.
Qed.

Lemma cycle_eq (E : Env) (st : State) :
  cycle E st
  = snd (match fused (world E) with
         | NotWatching => clear_presence E (after_collect E st)
         | Watching m => synchronize E m (after_collect E st)
         end).
Proof.
  unfold cycle. fold (start_of st). rewrite detect_media_eq, decide_classify.
  fold (fused (world E)). fold (after_collect E st).
  destruct (fused (world E)); reflexivity.
Qed.

Lemma sync_due_after_collect (E : Env) (st : State) (m : Media) :
  sync_due E (after_collect E st) m = sync_due E st m.
Proof.
  unfold sync_due. destruct (after_collect_fields E st) as [H1 [H2 _]].
  rewrite H1, H2. reflexivity.
Qed.

Lemma timestamp_reset_after_collect (E : Env) (st : State) :
  timestamp_reset E (after_collect E st) = timestamp_reset E st.
Proof.
  unfold timestamp_reset. destruct (after_collect_fields E st) as [_ [H2 _]].
  rewrite H2. reflexivity.
Qed.

(** The snapshot after a cycle. *)
Lemma cycle_media (E : Env) (st : State) :
  current_media (cycle E st)
  = match fused (world E) with
    | NotWatching => None
    | Watching m => if sync_due E st m then Some m else current_media st
    end.
Proof.
  rewrite cycle_eq. destruct (after_collect_fields E st) as [H1 [H2 [H3 H4]]].
  destruct (fused (world E)) as [|m].
  - rewrite clear_presence_eq. cbn [snd]. rewrite H1.
    destruct (current_media st) as [cm|] eqn:Hcm.
    + destruct (rpc (after_collect E st)); reflexivity.
    + exact H1.
  - rewrite <- sync_due_after_collect.
    destruct (sync_due E (after_collect E st) m) eqn:Hdue.
    + rewrite synchronize_due by exact Hdue. rewrite push_same_media. reflexivity.
    + rewrite synchronize_idle by exact Hdue. exact H1.
Qed.

(** The start time after a cycle. *)
Lemma cycle_time (E : Env) (st : State) :
  start_timestamp (cycle E st)
  = match fused (world E) with
    | NotWatching => start_timestamp st
    | Watching m =>
        if sync_due E st m && timestamp_reset E st
        then Some (time_time (world E))
        else start_timestamp st
    end.
Proof.
  rewrite cycle_eq. destruct (after_collect_fields E st) as [H1 [H2 [H3 H4]]].
  destruct (fused (world E)) as [|m].
  - rewrite clear_presence_eq. cbn [snd].
    destruct (current_media (after_collect E st)); [|exact H2].
    destruct (rpc (after_collect E st)); exact H2.
  - rewrite <- sync_due_after_collect, <- timestamp_reset_after_collect.
    destruct (sync_due E (after_collect E st) m) eqn:Hdue; cbn [andb].
    + rewrite synchronize_due by exact Hdue. rewrite push_same_time.
      cbn [with_media start_timestamp]. rewrite connect_for_same_time.
      destruct (timestamp_reset E (after_collect E st)); [reflexivity|exact H2].
    + rewrite synchronize_idle by exact Hdue. exact H2.
Qed.

Lemma collectors_app (a b : list event) :
  collectors (a ++ b) = (collectors a ++ collectors b)%list.
Proof. unfold collectors. apply flat_map_app. Qed.

Lemma collectors_consulted (cs : list collector) :
  collectors (map Consulted cs) = cs.
Proof. induction cs as [|c cs IH]; [reflexivity|]. cbn. f_equal. exact IH. Qed.

Lemma collectors_none (evs : list event) :
  forallb (fun ev => negb (is_consultation ev)) evs = true -> collectors evs = [].
Proof.
  induction evs as [|ev evs IH]; [reflexivity|]. cbn [forallb].
  intro H. apply andb_prop in H. destruct H as [Hev Hevs].
  destruct ev; try discriminate Hev; cbn; apply IH, Hevs.
Qed.

Lemma backend_is_no_consultation (ev : event) :
  is_backend ev = true -> negb (is_consultation ev) = true.
Proof. destruct ev; intro H; solve [reflexivity | discriminate H]. Qed.

(** The collectors a cycle consults: those of the cascade, and no other
    step of the cycle consults one. *)
Lemma cycle_collectors (E : Env) (st : State) :
  collectors (trace (cycle E st)) = consulted_by (world E).
Proof.
  unfold cycle. fold (start_of st). rewrite detect_media_eq.
  fold (after_collect E st).
  destruct (decide_extends (fun ev => negb (is_consultation ev))
              backend_is_no_consultation
              E (selected (world E)) (after_collect E st)
              (fun _ => eq_refl)) as [evs [Htr Hq]].
  rewrite Htr, collectors_app, (collectors_none evs Hq), app_nil_r.
  destruct (after_collect_fields E st) as [_ [_ [_ H4]]].
  rewrite H4. apply collectors_consulted.
Qed.

Lemma lookups_app (a b : list event) : lookups (a ++ b) = lookups a + lookups b.
Proof. unfold lookups. rewrite filter_app. apply length_app. Qed.

Lemma lookups_backend (evs : list event) :
  forallb is_backend evs = true -> lookups evs = 0.
Proof.
  induction evs as [|ev evs IH]; [reflexivity|]. cbn [forallb].
  intro H. apply andb_prop in H. destruct H as [Hev Hevs].
  destruct ev; try discriminate Hev; apply IH, Hevs.
Qed.

Lemma lookups_consulted (cs : list collector) : lookups (map Consulted cs) = 0.
Proof. induction cs as [|c cs IH]; [reflexivity|exact IH]. Qed.

Lemma requests_app (a b : list event) :
  requests (a ++ b) = (requests a ++ requests b)%list.
Proof. apply filter_app. Qed.

Lemma requests_consulted (cs : list collector) : requests (map Consulted cs) = [].
Proof. induction cs as [|c cs IH]; [reflexivity|exact IH]. Qed.

Lemma push_eq (E : Env) (m : Media) :
  exists k, forall st,
    push E m st
    = match rpc st with
      | Some _ => update_presence E m k (record (FindMediaImage m) st)
      | None => (inl tt, st)
      end.
Proof.
  eexists. intro st. unfold push, bind at 1, get.
  destruct (rpc st); reflexivity.
Qed.

(** What the last block adds: nothing without a client object; one lookup
    and then calls into Discord with one. *)
Lemma push_lookups (E : Env) (m : Media) (st : State) :
  lookups (trace (snd (push E m st)))
  = lookups (trace st) + (if is_some (rpc (snd (push E m st))) then 1 else 0).
Proof.
  destruct (push_eq E m) as [k Hk]. rewrite Hk.
  destruct (rpc st) as [p|] eqn:Hrpc; cbn [is_some snd].
  - set (st1 := record (FindMediaImage m) st).
    assert (Hsome : is_some (rpc (snd (update_presence E m k st1))) = true).
    { apply update_presence_client_stays. unfold st1. cbn. rewrite Hrpc. reflexivity. }
    rewrite Hsome.
    destruct (update_presence_extends is_backend (fun ev H => H) E m k st1)
      as [evs [Htr Hq]].
    rewrite Htr, lookups_app, (lookups_backend evs Hq).
    unfold st1. cbn [record trace]. rewrite lookups_app. cbn. lia.
  - rewrite Hrpc. cbn. lia.
Qed.

(** The image lookups of a cycle. *)
Lemma cycle_lookups (E : Env) (st : State) :
  lookups (trace (cycle E st))
  = match fused (world E) with
    | NotWatching => 0
    | Watching m =>
        if sync_due E st m && is_some (rpc (cycle E st)) then 1 else 0
    end.
Proof.
  rewrite cycle_eq. destruct (after_collect_fields E st) as [H1 [H2 [H3 H4]]].
  destruct (fused (world E)) as [|m].
  - destruct (clear_presence_extends is_backend (fun ev H => H) E (after_collect E st))
      as [evs [Htr Hq]].
    rewrite Htr, H4, lookups_app, lookups_consulted, (lookups_backend evs Hq).
    reflexivity.
  - rewrite <- sync_due_after_collect.
    destruct (sync_due E (after_collect E st) m) eqn:Hdue; cbn [andb].
    + rewrite synchronize_due by exact Hdue.
      match goal with
      | |- context [push E m ?s] => set (st3 := s)
      end.
      rewrite (push_lookups E m st3).
      assert (H0 : lookups (trace st3) = 0).
      { unfold st3. cbn [with_media trace].
        match goal with
        | |- context [connect_for E m ?c ?s] =>
            destruct (connect_for_extends is_backend (fun ev H => H) E m c s)
              as [evs [Htr Hq]]
        end.
        rewrite Htr, lookups_app, (lookups_backend evs Hq).
        destruct (timestamp_reset E (after_collect E st)); cbn [with_time trace];
          rewrite H4, lookups_consulted; reflexivity. }
      rewrite H0. reflexivity.
    + rewrite synchronize_idle by exact Hdue. cbn [snd].
      rewrite H4. apply lookups_consulted.
Qed.


(** When the refresh timer fires the start time is true, so the assignment
    of [start_timestamp] is skipped. *)
Lemma refresh_due_no_reset (E : Env) (st : State) :
  force_update_due (time_time (world E)) (start_timestamp st) = true ->
  timestamp_reset E st = false.
Proof.
  unfold timestamp_reset, force_update_due, truthy_time, truthy_int.
  destruct (start_timestamp st) as [t|]; [|discriminate].
  intro H. rewrite H. apply andb_prop in H. destruct H as [Ht _].
  rewrite Ht. reflexivity.
Qed.

(** A forced refresh of unchanged content keeps the start time. *)
Lemma forced_refresh_keeps_start_timestamp (E : Env) (st : State) (m : Media) :
  fused (world E) = Watching m ->
  content_changed m (current_media st) = false ->
  start_timestamp (cycle E st) = start_timestamp st.
Proof.
  intros Hf Hc. rewrite cycle_time, Hf. unfold sync_due. rewrite Hc. cbn [orb].
  destruct (force_update_due (time_time (world E)) (start_timestamp st)) eqn:Hd;
    [|reflexivity].
  rewrite (refresh_due_no_reset E st Hd). reflexivity.
Qed.

(** A change of content away from a refresh boundary sets the start time
    to the current time. *)
Lemma content_change_resets_start_timestamp (E : Env) (st : State) (m : Media) :
  fused (world E) = Watching m ->
  content_changed m (current_media st) = true ->
  force_update_due (time_time (world E)) (start_timestamp st) = false ->
  start_timestamp (cycle E st) = Some (time_time (world E)).
Proof.
  intros Hf Hc Hd. rewrite cycle_time, Hf. unfold sync_due, timestamp_reset.
  rewrite Hc, Hd. reflexivity.
Qed.

(** ** Fusion *)

(** C1.  The cascade is a strict priority over the three collectors in
    the order system processes, native applications, browser tabs.  When
    the system-process collector returns a record, the poll decides on
    that record and consults no other collector.  When it returns nothing
    the native-app collector is consulted, and its record, if it returns
    one, is the one decided on, the browser collector being left out.
    When both return nothing the browser collector is consulted, and the
    poll decides on what that one gives.  So the native-app collector is
    consulted only when the first returned nothing, and the browser
    collector only when both did. *)
Theorem cascade_is_strict_priority (F : Faults) (E : Env) (st : State) :
  (forall r,
      check_system_processes (world E) = Some r ->
      detect_media F E st
      = decide E (Watching r) (record (Consulted SystemProcesses) st)
      /\ collectors (trace (cycle E st)) = [SystemProcesses])
  /\ (forall r,
         check_system_processes (world E) = None ->
         native_raises F = None ->
         check_native_apps (world E) = Some r ->
         detect_media F E st
         = decide E (Watching r)
                  (record_all [Consulted SystemProcesses; Consulted NativeApps] st)
         /\ collectors (trace (cycle E st)) = [SystemProcesses; NativeApps])
  /\ (check_system_processes (world E) = None ->
      native_raises F = None ->
      check_native_apps (world E) = None ->
      detect_media F E st
      = match check_browser_tabs F (world E) with
        | inl (Some r) =>
            decide E (Watching r)
                   (record_all [Consulted SystemProcesses; Consulted NativeApps;
                                Consulted BrowserTabs] st)
        | inl None =>
            decide E NotWatching
                   (record_all [Consulted SystemProcesses; Consulted NativeApps;
                                Consulted BrowserTabs] st)
        | inr e =>
            (inr e,
             record_all [Consulted SystemProcesses; Consulted NativeApps;
                         Consulted BrowserTabs] st)
        end
      /\ collectors (trace (cycle E st))
         = [SystemProcesses; NativeApps; BrowserTabs])
  /\ (In NativeApps (collectors (trace (cycle E st))) ->
      check_system_processes (world E) = None)
  /\ (In BrowserTabs (collectors (trace (cycle E st))) ->
      check_system_processes (world E) = None
      /\ check_native_apps (world E) = None).
Proof.
  rewrite cycle_collectors, detect_media_under.
  unfold escaping, consulted_under, consulted_by, selected.
  split; [|split; [|split; [|split]]].
  - intros r H. rewrite H. split; reflexivity.
  - intros r H1 H2 H3. rewrite H1, H2, H3. split; reflexivity.
  - intros H1 H2 H3. rewrite H1, H2, H3.
    rewrite check_browser_tabs_none, check_browser_tabs_eq.
    destruct (failing_scan F (world E)); split; reflexivity.
  - destruct (check_system_processes (world E)); [|reflexivity].
    cbn. intuition discriminate.
  - destruct (check_system_processes (world E)); [cbn; intuition discriminate|].
    destruct (check_native_apps (world E)); [|split; reflexivity].
    cbn. intuition discriminate.
Qed.

(** The Netflix application is running: only the first collector is
    consulted.  Netflix in a window and no process of it: the native-app
    collector is consulted and its record is decided on. *)
Lemma cascade_is_strict_priority_witness :
  collectors (trace (cycle (env_of (netflix_world episode1 1000) always_done)
                           offline))
  = [SystemProcesses]
  /\ detect_media no_faults (env_of netflix_window_world always_done) offline
     = decide (env_of netflix_window_world always_done)
              (Watching (cand_media (by_window "Netflix"
                                               (parse_netflix_title episode1)
                                               2 true)))
              (record_all [Consulted SystemProcesses; Consulted NativeApps]
                          offline).
Proof.
  split.
  - apply (proj1 (cascade_is_strict_priority
                    no_faults
                    (env_of (netflix_world episode1 1000) always_done) offline)
                 show_a_episode1).
    vm_compute. reflexivity.
  - apply (proj1 (proj2 (cascade_is_strict_priority
                           no_faults (env_of netflix_window_world always_done) offline))
                 (cand_media (by_window "Netflix" (parse_netflix_title episode1)
                                        2 true)));
      vm_compute; reflexivity.
Defined.

(** ** The false-positive filters *)

(** C2, as the code has it.  A record marked by the system-process
    collector skips the ignore list and the length rule, but not the first
    filter: it is rejected exactly when its lower-cased title contains one
    of the terms of that filter. *)
Theorem system_record_filtered_by_blanket_terms_only (m : Media) :
  detected_by_system m = true ->
  classify (Watching m)
  = if any_in blanket_terms (PyStr.lower (title m)) then NotWatching
    else Watching m.
Proof.
  intro Hsys. rewrite (classify_by_system m Hsys).
  unfold blanket_filter, any_in, blanket_terms. cbn [existsb].
  rewrite Hsys. cbn [negb]. rewrite andb_false_r.
  repeat match goal with
         | |- context [PyStr.contains ?p ?t] =>
             destruct (PyStr.contains p t); cbn [orb]; try reflexivity
         end.
Qed.

(** A system record titled "Discord settings" matches two entries of the
    ignore list and is accepted. *)
Lemma system_record_filtered_by_blanket_terms_only_witness :
  is_false_positive discord_settings = true
  /\ classify (Watching discord_settings) = Watching discord_settings.
Proof.
  split; [reflexivity|].
  exact (system_record_filtered_by_blanket_terms_only discord_settings eq_refl).
Defined.

(** C2, as stated, fails: the Disney+ application on a page titled
    "readme notes" is found by the system-process collector, and the first
    filter rejects it on its title. *)
Lemma system_record_rejected_on_title :
  check_system_processes readme_world
  = Some (mkMedia "readme notes" "Disney+" "movie" None None None true)
  /\ fused readme_world = NotWatching.
Proof. vm_compute. split; reflexivity. Qed.

(** ** The start time *)

(** C3 fails on the code.  Episode 1 has been on since time 1000; at time
    1180, where the refresh timer fires, the detection is episode 2: the
    snapshot becomes episode 2 and [start_timestamp] stays 1000. *)
Theorem start_timestamp_kept_when_change_meets_refresh :
  current_media watching_episode1 = Some show_a_episode1
  /\ start_timestamp watching_episode1 = Some 1000%Z
  /\ fused (netflix_world episode2 1180) = Watching show_a_episode2
  /\ content_changed show_a_episode2 (current_media watching_episode1) = true
  /\ current_media (cycle (env_of (netflix_world episode2 1180) always_done)
                          watching_episode1)
     = Some show_a_episode2
  /\ start_timestamp (cycle (env_of (netflix_world episode2 1180) always_done)
                            watching_episode1)
     = Some 1000%Z.
Proof. vm_compute. repeat split. Qed.

(** ** Reconnection *)

(** A reconnection that succeeds leaves a client object bound to the
    default identity, whatever the identity before. *)
Lemma reconnect_discord_identity (E : Env) (st st' : State) :
  reconnect_discord E st = (inl true, st') ->
  rpc st' = Some (mkPresence (DISCORD_CLIENT_ID E)).
Proof.
  unfold reconnect_discord, try_except, new_presence, on_rpc, emit, set_rpc,
    backend_call, bind, get, modify, ret, raise.
  cbn.
  repeat match goal with
         | |- context [match rpc st with _ => _ end] => destruct (rpc st)
         | |- context [discord E ?t] => destruct (discord E t); cbn
         end;
    intro H; inversion H; reflexivity.
Qed.

(** C5 fails on the code.  The identities are distinct and the cycle opens
    the connection under the Netflix identity 333; the first update times
    out on the pipe, and the reconnection opens the new connection under
    the default identity 111, under which the presence is then pushed. *)
Theorem reconnect_opens_default_identity :
  client_id_for (env_of (netflix_world episode1 1000) timeout_once) "Netflix"
  = "333"
  /\ requests (trace (cycle (env_of (netflix_world episode1 1000) timeout_once)
                            offline))
     = [NewPresence "333"; Connect "333"; Update "333" basic_episode1;
        Close "333"; Sleep 3000; NewPresence "111"; Connect "111";
        Update "111" basic_episode1; Sleep 1000; Update "111" full_episode1]
  /\ rpc (cycle (env_of (netflix_world episode1 1000) timeout_once) offline)
     = Some (mkPresence "111").
Proof. vm_compute. repeat split. Qed.

(** ** The snapshot *)

(** C6, as the code has it.  The snapshot after a cycle is the detection
    whenever a synchronization is due, whatever becomes of the push; it is
    kept when the detection is accepted and no synchronization is due; it
    is cleared when the detection is rejected or absent. *)
Theorem snapshot_follows_detection (E : Env) (st : State) :
  current_media (cycle E st)
  = match fused (world E) with
    | NotWatching => None
    | Watching m => if sync_due E st m then Some m else current_media st
    end.
Proof. apply cycle_media. Qed.

(** C6, as stated, fails: with episode 1 as snapshot and every update
    failing, the only push of the cycle fails and the snapshot is
    episode 2; and with no client object at all, nothing is pushed and a
    snapshot is created. *)
Lemma snapshot_replaced_without_successful_push :
  (current_media watching_episode1 = Some show_a_episode1
   /\ requests (trace (cycle (env_of (netflix_world episode2 1050) updates_fail)
                             watching_episode1))
      = [Update "333" basic_episode2]
   /\ updates_fail (trace (cycle (env_of (netflix_world episode2 1050) updates_fail)
                                 watching_episode1))
      = Fails "Connection lost"
   /\ current_media (cycle (env_of (netflix_world episode2 1050) updates_fail)
                           watching_episode1)
      = Some show_a_episode2)
  /\ (current_media offline = None
      /\ requests (trace (cycle (env_of (netflix_world episode1 1000) no_discord)
                                offline))
         = [NewPresence "333"]
      /\ rpc (cycle (env_of (netflix_world episode1 1000) no_discord) offline)
         = None
      /\ current_media (cycle (env_of (netflix_world episode1 1000) no_discord)
                              offline)
         = Some show_a_episode1).
Proof. vm_compute. repeat split. Qed.

(** ** Clearing *)




(** ** The image lookup *)

(** C8, as the code has it.  A cycle looks the image up once when a
    synchronization is due, by a change of content or by the refresh
    timer, and a client object exists; it does not look it up in any other
    cycle. *)
Theorem image_lookup_once_per_synchronization (E : Env) (st : State) :
  lookups (trace (cycle E st))
  = match fused (world E) with
    | NotWatching => 0
    | Watching m =>
        if sync_due E st m && is_some (rpc (cycle E st)) then 1 else 0
    end.
Proof. apply cycle_lookups. Qed.

(** C8, as stated, fails: episode 1 has been on since time 1000, and at
    time 1180 the detection is the same episode; the refresh timer alone
    triggers the synchronization, and the image is looked up. *)
Lemma image_lookup_on_forced_refresh :
  current_media watching_episode1 = Some show_a_episode1
  /\ fused (netflix_world episode1 1180) = Watching show_a_episode1
  /\ content_changed show_a_episode1 (current_media watching_episode1) = false
  /\ force_update_due 1180 (start_timestamp watching_episode1) = true
  /\ lookups (trace (cycle (env_of (netflix_world episode1 1180) always_done)
                           watching_episode1))
     = 1.
Proof. vm_compute. repeat split. Qed.

(** ** The matcher on strings with a known shape *)

Lemma run_cat (ic : bool) (r1 r2 : regex) (pos : nat) (s : string)
      (c : captures) (k : kont) :
  run ic (Cat r1 r2) pos s c k
  = run ic r1 pos s c (fun pos' s' c' => run ic r2 pos' s' c' k).
Proof. reflexivity. Qed.

Lemma run_grp (ic : bool) (n : nat) (r : regex) (pos : nat) (s : string)
      (c : captures) (k : kont) :
  run ic (Grp n r) pos s c k
  = run ic r pos s c
        (fun pos' s' c' => k pos' s' (set_group n (PyStr.take (pos' - pos) s) c')).
Proof. reflexivity. Qed.

Lemma run_cls (ic : bool) (p : ascii -> bool) (pos : nat) (d : ascii) (s : string)
      (c : captures) (k : kont) :
  run ic (Cls p) pos (String d s) c k = if p d then k (S pos) s c else None.
Proof. reflexivity. Qed.

Lemma run_lit (ic : bool) (ch : ascii) (pos : nat) (d : ascii) (s : string)
      (c : captures) (k : kont) :
  run ic (Lit ch) pos (String d s) c k
  = if char_eq ic ch d then k (S pos) s c else None.
Proof. reflexivity. Qed.

Lemma run_star_nil (ic g : bool) (r : regex) (pos : nat) (c : captures) (k : kont) :
  run ic (Star g r) pos EmptyString c k = k pos EmptyString c.
Proof. reflexivity. Qed.

Lemma run_star_cls (ic g : bool) (p : ascii -> bool) (pos : nat) (d : ascii)
      (s : string) (c : captures) (k : kont) :
  run ic (Star g (Cls p)) pos (String d s) c k
  = if g
    then or_else (if p d then run ic (Star g (Cls p)) (S pos) s c k else None)
                 (fun _ => k pos (String d s) c)
    else or_else (k pos (String d s) c)
                 (fun _ => if p d then run ic (Star g (Cls p)) (S pos) s c k
                           else None).
Proof.
  cbn [run String.length].
  assert (Hne : Nat.eqb (S pos) pos = false) by (apply Nat.eqb_neq; lia).
  rewrite Hne. reflexivity.
Qed.



Lemma app_nil_r_str (a : string) : (a ++ EmptyString = a)%string.
Proof. induction a as [|ch a IH]; cbn; [reflexivity|]. rewrite IH. reflexivity. Qed.


(** It fails when the rest of the pattern fails after every part of the
    run. *)
Lemma greedy_fails (ic : bool) (p : ascii -> bool) (ds rest : string)
      (c : captures) (k : kont) :
  all_chars p ds = true ->
  stops p rest = true ->
  forall pos,
    (forall n1 n2, ds = (n1 ++ n2)%string ->
                   k (pos + String.length n1) (n2 ++ rest)%string c = None) ->
    run ic (Star true (Cls p)) pos (ds ++ rest) c k = None.
Proof.
  intros Hds Hrest. induction ds as [|d ds IH]; intros pos Hk.
  - specialize (Hk EmptyString EmptyString eq_refl).
    cbn [String.append String.length] in *. rewrite Nat.add_0_r in Hk.
    destruct rest as [|ch t]; [rewrite run_star_nil; exact Hk|].
    rewrite run_star_cls. cbn in Hrest. apply negb_true_iff in Hrest.
    rewrite Hrest. cbn. exact Hk.
  - cbn [all_chars] in Hds. apply andb_prop in Hds. destruct Hds as [Hd Hds].
    cbn [String.append]. rewrite run_star_cls, Hd.
    rewrite (IH Hds (S pos)).
    + cbn. specialize (Hk EmptyString (String d ds) eq_refl).
      cbn [String.append String.length] in Hk. rewrite Nat.add_0_r in Hk. exact Hk.
    + intros n1 n2 Hn. specialize (Hk (String d n1) n2).
      cbn [String.append String.length] in Hk. rewrite Nat.add_succ_r in Hk.
      apply Hk. rewrite Hn. reflexivity.
Qed.

(** A lazy repetition of [.] goes over a prefix after no part of which the
    rest of the pattern matches. *)
Lemma lazy_skip (ic : bool) (name rest : string) (c : captures) (k : kont) :
  all_chars is_dot name = true ->
  forall pos,
    (forall n1 n2, name = (n1 ++ n2)%string -> n2 <> EmptyString ->
                   k (pos + String.length n1) (n2 ++ rest)%string c = None) ->
    run ic (Star false dot) pos (name ++ rest) c k
    = run ic (Star false dot) (pos + String.length name) rest c k.
Proof.
  intros Hname. induction name as [|d name IH]; intros pos Hk.
  - cbn. rewrite Nat.add_0_r. reflexivity.
  - cbn [all_chars] in Hname. apply andb_prop in Hname. destruct Hname as [Hd Hname].
    cbn [String.append]. unfold dot. rewrite run_star_cls. fold dot.
    pose proof (Hk EmptyString (String d name) eq_refl) as H0.
    cbn [String.append String.length] in H0. rewrite Nat.add_0_r in H0.
    rewrite H0 by discriminate. cbn [or_else].
    unfold is_dot in Hd. rewrite Hd.
    rewrite (IH Hname (S pos)).
    + cbn [String.length]. rewrite Nat.add_succ_r. reflexivity.
    + intros n1 n2 Hn Hne. specialize (Hk (String d n1) n2).
      cbn [String.append String.length] in Hk. rewrite Nat.add_succ_r in Hk.
      apply Hk; [rewrite Hn; reflexivity|exact Hne].
Qed.


(** A lazy repetition of [.] that reaches the end of the subject without
    the rest of the pattern matching fails. *)
Lemma lazy_exhausted (ic : bool) (s : string) (c : captures) (k : kont) :
  all_chars is_dot s = true ->
  forall pos,
    (forall n1 n2, s = (n1 ++ n2)%string ->
                   k (pos + String.length n1) n2 c = None) ->
    run ic (Star false dot) pos s c k = None.
Proof.
  intros Hs pos Hk.
  rewrite <- (app_nil_r_str s). rewrite lazy_skip.
  - rewrite run_star_nil. specialize (Hk s EmptyString).
    apply Hk. symmetry. apply app_nil_r_str.
  - exact Hs.
  - intros n1 n2 Hn _. rewrite app_nil_r_str. apply Hk. exact Hn.
Qed.



Lemma grp_lazy_fails (ic : bool) (n : nat) (s : string) (c : captures) (k : kont) :
  all_chars is_dot s = true ->
  (forall n1 n2 c', s = (n1 ++ n2)%string -> k (String.length n1) n2 c' = None) ->
  run ic (Grp n (Star false dot)) 0 s c k = None.
Proof.
  intros Hs Hfail. rewrite run_grp. apply lazy_exhausted; [exact Hs|].
  intros n1 n2 Hn. cbn [Nat.add]. apply Hfail. exact Hn.
Qed.




Lemma all_chars_suffix (p : ascii -> bool) (n1 n2 : string) :
  all_chars p (n1 ++ n2) = true -> all_chars p n2 = true.
Proof.
  induction n1 as [|ch n1 IH]; [trivial|]. cbn. intro H.
  apply andb_prop in H. apply IH. exact (proj2 H).
Qed.







(** A lazy repetition fails when the rest of the pattern fails after every
    prefix of the subject. *)
Lemma lazy_fails (ic : bool) (p : ascii -> bool) (s : string) (c : captures)
      (k : kont) :
  forall pos,
    (forall n1 n2, s = (n1 ++ n2)%string ->
                   k (pos + String.length n1) n2 c = None) ->
    run ic (Star false (Cls p)) pos s c k = None.
Proof.
  induction s as [|d s IH]; intros pos Hk.
  - rewrite run_star_nil. specialize (Hk EmptyString EmptyString eq_refl).
    cbn in Hk. rewrite Nat.add_0_r in Hk. exact Hk.
  - rewrite run_star_cls.
    pose proof (Hk EmptyString (String d s) eq_refl) as H0.
    cbn [String.length] in H0. rewrite Nat.add_0_r in H0. rewrite H0.
    cbn [or_else]. destruct (p d); [|reflexivity].
    apply IH. intros n1 n2 Hn. specialize (Hk (String d n1) n2).
    cbn [String.append String.length] in Hk. rewrite Nat.add_succ_r in Hk.
    apply Hk. rewrite Hn. reflexivity.
Qed.


Lemma netflix_pattern_needs_colon (s : string) :
  all_chars no_colon s = true -> rmatch netflix_show_pattern s = None.
Proof.
  intro Hs. unfold rmatch, netflix_show_pattern.
  rewrite run_cat, run_grp. unfold dot. rewrite lazy_fails; [reflexivity|].
  intros n1 n2 Hn. rewrite run_cat.
  destruct n2 as [|ch n2]; [reflexivity|].
  rewrite Hn in Hs. apply all_chars_suffix in Hs.
  cbn [all_chars] in Hs. apply andb_prop in Hs. destruct Hs as [Hch _].
  apply negb_true_iff in Hch.
  rewrite run_lit. unfold char_eq. rewrite Ascii.eqb_sym, Hch. reflexivity.
Qed.

(** X1.  On an ASCII title with no colon after the leading brand the Netflix
    parser falls back to a movie whose title is the stripped text. *)
Theorem parse_netflix_title_without_colon (t : string) :
  PyStr.is_ascii t = true ->
  all_chars no_colon (without_prefix "Netflix - " t) = true ->
  parse_netflix_title t
  = mkParsed (PyStr.strip (without_prefix "Netflix - " t)) "movie" None None None.
Proof.
  intros _ H. unfold parse_netflix_title.
  change (if PyStr.startswith t "Netflix - " then PyStr.drop 10 t else t)
    with (without_prefix "Netflix - " t).
  rewrite (netflix_pattern_needs_colon _ H). reflexivity.
Qed.

Lemma parse_netflix_title_without_colon_witness :
  parse_netflix_title "Netflix - The Irishman  "
  = mkParsed "The Irishman" "movie" None None None.
Proof.
  exact (parse_netflix_title_without_colon "Netflix - The Irishman  "
           eq_refl eq_refl).
Defined.



(** ** Reversal, stripping and search *)






Lemma all_chars_app (p : ascii -> bool) (a b : string) :
  all_chars p (a ++ b) = all_chars p a && all_chars p b.
Proof.
  induction a as [|ch a IH]; cbn; [reflexivity|].
  rewrite IH, andb_assoc. reflexivity.
Qed.

















(** ** The Disney+ grammar *)




Lemma run_lit_nil (ic : bool) (ch : ascii) (pos : nat) (c : captures) (k : kont) :
  run ic (Lit ch) pos EmptyString c k = None.
Proof. reflexivity. Qed.

Lemma run_cls_nil (ic : bool) (p : ascii -> bool) (pos : nat) (c : captures)
      (k : kont) :
  run ic (Cls p) pos EmptyString c k = None.
Proof. reflexivity. Qed.

(** White space and then a dash cannot be matched at the start of a text
    that holds no dash up to its first character that is no white
    space. *)
Lemma space_dash_fails (r : regex) (ws rest : string)
      (pos : nat) (c : captures) (k : kont) :
  all_chars PyStr.is_space ws = true ->
  all_chars no_dash ws = true ->
  stops PyStr.is_space rest = true ->
  stops is_dash rest = true ->
  run false (plus true space ++ Lit "-" ++ r)%re pos (ws ++ rest) c k = None.
Proof.
  intros Hws Hnd Hsp Hd. unfold plus, space. rewrite !run_cat.
  assert (Hrest : forall pos' k', run false (Lit "-") pos' rest c k' = None).
  { intros pos' k'. destruct rest as [|ch t]; [reflexivity|].
    rewrite run_lit. unfold char_eq. cbn in Hd. unfold is_dash in Hd.
    apply negb_true_iff in Hd. rewrite Ascii.eqb_sym, Hd. reflexivity. }
  destruct ws as [|w ws]; cbn [String.append].
  - destruct rest as [|ch t]; [reflexivity|].
    rewrite run_cls. cbn in Hsp. apply negb_true_iff in Hsp. rewrite Hsp.
    reflexivity.
  - cbn [all_chars] in Hws, Hnd.
    apply andb_prop in Hws. destruct Hws as [Hw Hws].
    apply andb_prop in Hnd. destruct Hnd as [_ Hnd].
    rewrite run_cls, Hw.
    apply greedy_fails; [exact Hws|exact Hsp|].
    intros n1 n2 Hn. rewrite run_cat.
    rewrite Hn in Hnd. apply all_chars_suffix in Hnd.
    destruct n2 as [|x n2]; cbn [String.append]; [apply Hrest|].
    rewrite run_lit. unfold char_eq.
    cbn [all_chars] in Hnd. apply andb_prop in Hnd. destruct Hnd as [Hx _].
    unfold no_dash in Hx. apply negb_true_iff in Hx.
    rewrite Ascii.eqb_sym, Hx. reflexivity.
Qed.

(** Every text is a run of a class followed by a text the run cannot go
    on into. *)
Lemma class_run_prefix (q : ascii -> bool) (s : string) :
  exists ws rest,
    s = (ws ++ rest)%string /\ all_chars q ws = true /\ stops q rest = true.
Proof.
  induction s as [|d s IH].
  - exists EmptyString, EmptyString. repeat split.
  - destruct (q d) eqn:Hd.
    + destruct IH as [ws [rest [Hs [Hws Hrest]]]].
      exists (String d ws), rest. cbn. rewrite Hd, Hws, Hs. repeat split.
      exact Hrest.
    + exists EmptyString, (String d s). cbn. rewrite Hd. repeat split.
Qed.

Lemma disney_pattern_needs_dash (s : string) :
  all_chars no_dash s = true -> rmatch disney_show_pattern s = None.
Proof.
  intro Hs. unfold rmatch, disney_show_pattern.
  rewrite run_cat, run_grp. unfold dot at 1. rewrite lazy_fails; [reflexivity|].
  intros n1 n2 Hn.
  rewrite Hn in Hs. apply all_chars_suffix in Hs.
  destruct (class_run_prefix PyStr.is_space n2) as [ws [rest [Hn2 [Hws Hrest]]]].
  rewrite Hn2 in Hs |- *. rewrite all_chars_app in Hs.
  apply andb_prop in Hs. destruct Hs as [Hs1 Hs2].
  apply space_dash_fails; try assumption.
  destruct rest as [|ch t]; [reflexivity|].
  cbn in Hs2 |- *. apply andb_prop in Hs2. exact (proj1 Hs2).
Qed.

(** X3.  An ASCII Disney+ title whose cleaned text holds no dash falls back to
    a movie whose title is that text. *)
Theorem parse_disney_title_without_dash (t : string) :
  PyStr.is_ascii t = true ->
  all_chars no_dash (disney_cleaned t) = true ->
  parse_disney_title t
  = mkParsed (PyStr.strip (disney_cleaned t)) "movie" None None None.
Proof.
  intros _ H. unfold parse_disney_title.
  change (if PyStr.startswith t "Disney+ - " then PyStr.drop 10 t else t)
    with (without_prefix "Disney+ - " t).
  cbv zeta. fold (disney_cleaned t).
  rewrite (disney_pattern_needs_dash _ H). reflexivity.
Qed.

Lemma parse_disney_title_without_dash_witness :
  parse_disney_title "Encanto | Disney+"
  = mkParsed "Encanto" "movie" None None None.
Proof.
  exact (parse_disney_title_without_dash "Encanto | Disney+" eq_refl eq_refl).
Defined.









(** ** What the collectors return *)

Lemma first_return_some {A B : Type} (body : A -> option B) (l : list A) (r : B) :
  first_return body l = Some r -> exists x, In x l /\ body x = Some r.
Proof.
  induction l as [|x l IH]; cbn [first_return]; [discriminate|].
  destruct (body x) as [b|] eqn:Hx.
  - intro H. exists x. split; [left; reflexivity|congruence].
  - intro H. destruct (IH H) as [y [Hy Hb]]. exists y. split; [right; exact Hy|exact Hb].
Qed.

Lemma process_step_result (W : World) (svc app : string)
      (parse : string -> Parsed) (names hosts terms : list string)
      (proc : Proc) (r : Media) :
  process_step W svc app parse names hosts terms proc = Some r ->
  detected_by_system r = true /\ service r = svc.
Proof.
  unfold process_step.
  repeat match goal with
         | |- context [if ?c then _ else _] => destruct c
         | |- context [match first_title_with ?a ?w with _ => _ end] =>
             destruct (first_title_with a w)
         end;
    intro H; inversion H; split; reflexivity.
Qed.

Lemma browser_title_step_result (w : Window) (r : Media) :
  browser_title_step w = Some r ->
  r = generic_content "Netflix" \/ r = generic_content "Disney+".
Proof.
  unfold browser_title_step.
  repeat match goal with
         | |- context [if ?c then _ else _] => destruct c
         end;
    intro H; inversion H; auto.
Qed.

(** X5.  Every record of the system-process collector is marked as found by
    the system and names one of the two services. *)
Theorem check_system_processes_provenance (W : World) (r : Media) :
  check_system_processes W = Some r ->
  detected_by_system r = true
  /\ (service r = "Netflix" \/ service r = "Disney+").
Proof.
  unfold check_system_processes.
  destruct (first_return (disney_process_step W) (process_iter W)) as [d|] eqn:Hd.
  - intro H. inversion H. subst d.
    destruct (first_return_some _ _ _ Hd) as [proc [_ Hp]].
    destruct (process_step_result _ _ _ _ _ _ _ _ _ Hp) as [H1 H2]. auto.
  - destruct (first_return (netflix_process_step W) (process_iter W)) as [n|] eqn:Hn.
    + intro H. inversion H. subst n.
      destruct (first_return_some _ _ _ Hn) as [proc [_ Hp]].
      destruct (process_step_result _ _ _ _ _ _ _ _ _ Hp) as [H1 H2]. auto.
    + intro H. destruct (first_return_some _ _ _ H) as [w [_ Hw]].
      destruct (browser_title_step_result _ _ Hw) as [Hr|Hr]; rewrite Hr; auto.
Qed.

Lemma check_system_processes_provenance_witness :
  detected_by_system show_a_episode1 = true
  /\ (service show_a_episode1 = "Netflix" \/ service show_a_episode1 = "Disney+").
Proof.
  apply (check_system_processes_provenance (netflix_world episode1 1000)).
  vm_compute. reflexivity.
Defined.

Lemma select_window_member (h : Z) (found : list Candidate) (r : Media) :
  select_window h found = Some r ->
  exists c, In c found /\ r = cand_media c.
Proof.
  unfold select_window. destruct found as [|first rest]; [discriminate|].
  destruct (find (fun c => Z.eqb (window_hwnd c) h) (first :: rest)) as [c|] eqn:Hf.
  - intro H. inversion H. exists c. split; [|reflexivity].
    apply find_some in Hf. exact (proj1 Hf).
  - intro H. inversion H. exists first. split; [left; reflexivity|reflexivity].
Qed.

Lemma native_candidates_member (title : string) (h : Z) (visible : bool)
      (c : Candidate) :
  In c (native_candidates title h visible) ->
  detected_by_system (cand_media c) = false
  /\ (service (cand_media c) = "Netflix" \/ service (cand_media c) = "Disney+").
Proof.
  unfold native_candidates. intro H. apply in_app_or in H.
  destruct H as [H|H].
  - destruct (PyStr.contains NETFLIX_APP_NAME title); [|contradiction].
    destruct H as [H|[]]. subst c. cbn. auto.
  - destruct (PyStr.contains DISNEY_APP_NAME title); [|contradiction].
    destruct H as [H|[]]. subst c. cbn. auto.
Qed.

(** X6.  Every record of the native-app collector is unmarked, so the ignore
    list and the length rule apply to it, and names one of the two
    services. *)
Theorem check_native_apps_provenance (W : World) (r : Media) :
  check_native_apps W = Some r ->
  detected_by_system r = false
  /\ (service r = "Netflix" \/ service r = "Disney+").
Proof.
  unfold check_native_apps. cbv zeta. intro H.
  destruct (select_window_member _ _ _ H) as [c [Hc Hr]]. subst r.
  apply in_app_or in Hc. destruct Hc as [Hc|Hc].
  - exact (native_candidates_member _ _ _ _ Hc).
  - apply in_flat_map in Hc. destruct Hc as [w [_ Hw]].
    repeat match type of Hw with
           | In _ (if ?c then _ else _) => destruct c
           end; try contradiction.
    exact (native_candidates_member _ _ _ _ Hw).
Qed.


Lemma first_return_one_result {A B : Type} (body : A -> option B) (l : list A)
      (r : B) (x : A) :
  (forall y, In y l -> body y = None \/ body y = Some r) ->
  In x l -> body x = Some r ->
  first_return body l = Some r.
Proof.
  induction l as [|y l IH]; intros Hall Hin Hx; [contradiction|].
  cbn [first_return].
  destruct (Hall y (or_introl eq_refl)) as [Hy|Hy]; rewrite Hy; [|reflexivity].
  destruct Hin as [Hin|Hin]; [subst y; congruence|].
  apply IH; [|exact Hin|exact Hx].
  intros z Hz. apply Hall. right. exact Hz.
Qed.

Lemma first_return_none {A B : Type} (body : A -> option B) (l : list A) :
  (forall y, In y l -> body y = None) -> first_return body l = None.
Proof.
  induction l as [|y l IH]; intro Hall; [reflexivity|]. cbn [first_return].
  rewrite (Hall y (or_introl eq_refl)). apply IH.
  intros z Hz. apply Hall. right. exact Hz.
Qed.

Lemma first_return_found {A B : Type} (body : A -> option B) (l : list A)
      (x : A) (r : B) :
  In x l -> body x = Some r -> exists r', first_return body l = Some r'.
Proof.
  induction l as [|y l IH]; intros Hin Hx; [contradiction|]. cbn [first_return].
  destruct (body y) as [b|] eqn:Hy; [exists b; reflexivity|].
  destruct Hin as [Hin|Hin]; [subst y; congruence|]. apply IH; assumption.
Qed.

Lemma no_window_shows (app : string) (windows : list Window) :
  existsb (fun w => PyStr.contains app (w_title w)) windows = false ->
  first_title_with app windows = None.
Proof.
  intro H. unfold first_title_with.
  destruct (find (fun w => PyStr.contains app (w_title w)) windows) as [w|] eqn:Hf;
    [|reflexivity].
  apply find_some in Hf. destruct Hf as [Hin Hc].
  assert (Hex : existsb (fun w => PyStr.contains app (w_title w)) windows = true).
  { apply existsb_exists. exists w. split; assumption. }
  congruence.
Qed.

(** X8.  The Disney+ application running with no window that shows its name is
    reported as the placeholder ["Disney+ Content"]. *)
Theorem disney_process_without_window (W : World) (proc : Proc) :
  In proc (process_iter W) ->
  PyStr.lower (proc_name proc) = "disney+.exe" ->
  existsb (fun w => PyStr.contains "Disney+" (w_title w)) (get_all_windows W) = false ->
  check_system_processes W = Some (generic_content "Disney+")
  /\ classify (Watching (generic_content "Disney+"))
     = Watching (generic_content "Disney+").
Proof.
  intros Hin Hname Hwin. split; [|reflexivity].
  apply no_window_shows in Hwin. unfold check_system_processes.
  rewrite (first_return_one_result (disney_process_step W) (process_iter W)
             (generic_content "Disney+") proc); [reflexivity| |exact Hin|].
  - intros y _. unfold disney_process_step, process_step, DISNEY_APP_NAME.
    rewrite Hwin. cbn [PyStr.truthy String.eqb negb].
    repeat match goal with
           | |- context [if ?c then _ else _] => destruct c
           end; auto.
  - unfold disney_process_step, process_step, DISNEY_APP_NAME, is_candidate_process.
    rewrite Hwin, Hname. reflexivity.
Qed.

(** X9.  With neither application nor a host process running, a window title
    that names a service and several tabs, and holds none of the terms of
    the last loop, is enough for a placeholder marked as found by the
    system. *)
Theorem tab_title_promoted_to_system (W : World) (win : Window) :
  existsb (is_candidate_process disney_process_names) (process_iter W) = false ->
  existsb (is_candidate_process netflix_process_names) (process_iter W) = false ->
  In win (get_all_windows W) ->
  PyStr.contains "Netflix" (w_title win) || PyStr.contains "Disney+" (w_title win)
  = true ->
  any_in ["more pages"; "more tab"; "and tab"] (w_title win) = true ->
  any_in ["readme"; ".md"; "documentation"; "github"; "developer";
          "programming"; "code"; "disney + & netflix"]
         (PyStr.lower (w_title win)) = false ->
  exists svc,
    (svc = "Netflix" \/ svc = "Disney+")
    /\ check_system_processes W = Some (generic_content svc)
    /\ detected_by_system (generic_content svc) = true.
Proof.
  intros Hd Hn Hin Hsvc Htabs Hfp.
  assert (Hstep : exists r, browser_title_step win = Some r).
  { unfold browser_title_step. cbv zeta.
    assert (Htr : PyStr.truthy (w_title win) = true).
    { apply orb_prop in Hsvc. destruct Hsvc as [H|H].
      - apply (contains_nonempty "Netflix"); [discriminate|exact H].
      - apply (contains_nonempty "Disney+"); [discriminate|exact H]. }
    rewrite Htr, Hsvc, Htabs, Hfp. cbn [negb andb].
    destruct (PyStr.contains "Netflix" (w_title win)); [eexists; reflexivity|].
    cbn [orb] in Hsvc. rewrite Hsvc. eexists. reflexivity. }
  destruct Hstep as [r Hr].
  destruct (first_return_found _ _ _ _ Hin Hr) as [r' Hr'].
  unfold check_system_processes.
  rewrite (first_return_none (disney_process_step W)).
  - rewrite (first_return_none (netflix_process_step W)).
    + rewrite Hr'.
      destruct (first_return_some _ _ _ Hr') as [w [_ Hw]].
      destruct (browser_title_step_result _ _ Hw) as [E|E]; rewrite E.
      * exists "Netflix". auto.
      * exists "Disney+". auto.
    + intros y Hy. unfold netflix_process_step, process_step.
      assert (Hc : is_candidate_process netflix_process_names y = false).
      { destruct (is_candidate_process netflix_process_names y) eqn:E; [|reflexivity].
        assert (existsb (is_candidate_process netflix_process_names) (process_iter W)
                = true) by (apply existsb_exists; exists y; auto).
        congruence. }
      rewrite Hc. reflexivity.
  - intros y Hy. unfold disney_process_step, process_step.
    assert (Hc : is_candidate_process disney_process_names y = false).
    { destruct (is_candidate_process disney_process_names y) eqn:E; [|reflexivity].
      assert (existsb (is_candidate_process disney_process_names) (process_iter W)
              = true) by (apply existsb_exists; exists y; auto).
      congruence. }
    rewrite Hc. reflexivity.
Qed.

(** ** A cycle when Discord answers *)

Lemma requests_record_all (evs : list event) (st : State) :
  requests (trace (record_all evs st)) = (requests (trace st) ++ requests evs)%list.
Proof.
  destruct (record_all_fields evs st) as [_ [_ [_ H]]].
  rewrite H. apply requests_app.
Qed.

Lemma find_media_image_run (E : Env) (m : Media) (st : State) :
  find_media_image E m st = (inl (image_key_of E m), record (FindMediaImage m) st).
Proof. reflexivity. Qed.

Lemma image_key_truthy (E : Env) (m : Media) :
  image_key_of E m = None \/ opt_truthy (image_key_of E m) = true.
Proof.
  unfold image_key_of, find_media_image, bind, emit, modify, ret. cbn.
  match goal with
  | |- context [if ?c then _ else _] => destruct c eqn:Hc
  end; [right; exact Hc|left; reflexivity].
Qed.

(** The push when every call is answered. *)
Lemma update_presence_done (E : Env) (m : Media) (k : option string)
      (st : State) (p : Presence) :
  answers_all E ->
  rpc st = Some p ->
  exists evs,
    update_presence E m k st = (inl tt, record_all evs st)
    /\ map erase evs = push_shape (client_id p) (opt_truthy k).
Proof.
  intros Hdone Hrpc.
  unfold update_presence, try_except, on_rpc, backend_call, emit, bind, get,
    modify, ret. cbn. rewrite Hrpc. cbn. rewrite !Hdone. cbn.
  destruct (opt_truthy k); cbn; rewrite ?Hrpc; cbn; rewrite ?Hdone; cbn;
    rewrite ?Hrpc; cbn; rewrite ?Hdone; cbn.
  - eexists [_; _; _; _; _]. split; reflexivity.
  - eexists [_; _; _]. split; reflexivity.
Qed.

Lemma connect_for_done (E : Env) (m : Media) (c : bool) (st : State)
      (p : Presence) :
  answers_all E ->
  rpc st = Some p ->
  connect_for E m c st
  = (inl tt,
     if c
     then mkState (current_media st) (start_timestamp st)
                  (Some (mkPresence (client_id_for E (service m))))
                  (trace st ++ switch_shape (client_id p)
                                            (client_id_for E (service m)))
     else st).
Proof.
  intros Hdone Hrpc.
  unfold connect_for, when, try_except, new_presence, on_rpc, backend_call,
    set_rpc, bind, get, modify, ret. cbn. rewrite Hrpc. cbn.
  destruct c; cbn; [|reflexivity].
  repeat (progress (cbn; rewrite ?Hrpc, ?Hdone)).
  unfold switch_shape, record. cbn. rewrite <- !app_assoc. reflexivity.
Qed.

Lemma erase_requests (evs : list event) :
  map erase (requests evs) = requests (map erase evs).
Proof.
  unfold requests. induction evs as [|ev evs IH]; [reflexivity|].
  destruct ev; cbn; rewrite ?IH; reflexivity.
Qed.

Lemma requests_push_shape (id : string) (artwork : bool) :
  requests (push_shape id artwork) = push_shape id artwork.
Proof. destruct artwork; reflexivity. Qed.

Lemma presence_eta (p : Presence) : mkPresence (client_id p) = p.
Proof. destruct p. reflexivity. Qed.

(** X10.  When Discord answers every call and a client object exists, a cycle
    with a synchronization due makes these requests and no other: on a
    change of service, the old connection is cleared and closed and a new
    one is opened under the identity of the new service; then the basic
    update, the thumbnail update when an image was found, and the button
    update follow, each under the identity in force.  Without a change of
    service nothing is reconnected. *)
Theorem cycle_when_discord_answers (E : Env) (st : State) (m : Media)
        (p : Presence) :
  answers_all E ->
  rpc st = Some p ->
  fused (world E) = Watching m ->
  sync_due E st m = true ->
  map erase (requests (trace (cycle E st)))
  = ((if service_changed_from st m
      then switch_shape (client_id p) (client_id_for E (service m))
      else [])
     ++ push_shape (if service_changed_from st m
                    then client_id_for E (service m) else client_id p)
                   (opt_truthy (image_key_of E m)))%list
  /\ rpc (cycle E st)
     = Some (mkPresence (if service_changed_from st m
                         then client_id_for E (service m) else client_id p)).
Proof.
  intros Hdone Hrpc Hf Hdue.
  rewrite cycle_eq, Hf.
  destruct (after_collect_fields E st) as [H1 [H2 [H3 H4]]].
  rewrite synchronize_due by (rewrite sync_due_after_collect; exact Hdue).
  assert (Hsc : service_changed_from (after_collect E st) m
                = service_changed_from st m).
  { unfold service_changed_from. rewrite H1. reflexivity. }
  rewrite Hsc.
  set (st1 := if timestamp_reset E (after_collect E st)
              then with_time (after_collect E st) (Some (time_time (world E)))
              else after_collect E st).
  assert (Hr1 : rpc st1 = Some p).
  { unfold st1. destruct (timestamp_reset E (after_collect E st)); cbn;
      rewrite H3; exact Hrpc. }
  assert (Ht1 : trace st1 = map Consulted (consulted_by (world E))).
  { unfold st1. destruct (timestamp_reset E (after_collect E st)); cbn; exact H4. }
  rewrite (connect_for_done E m _ st1 p Hdone Hr1). cbn [snd].
  set (id := if service_changed_from st m
             then client_id_for E (service m) else client_id p).
  set (st3 := with_media _ (Some m)).
  assert (Hr3 : rpc st3 = Some (mkPresence id)).
  { unfold st3, id. destruct (service_changed_from st m); cbn; [reflexivity|].
    rewrite Hr1, presence_eta. reflexivity. }
  assert (Ht3 : requests (trace st3)
                = if service_changed_from st m
                  then switch_shape (client_id p) (client_id_for E (service m))
                  else []).
  { unfold st3. destruct (service_changed_from st m); cbn [with_media trace].
    - rewrite Ht1, requests_app, requests_consulted. reflexivity.
    - rewrite Ht1. apply requests_consulted. }
  destruct (update_presence_done E m (image_key_of E m)
              (record (FindMediaImage m) st3) (mkPresence id) Hdone)
    as [evs [Hrun Hshape]]; [exact Hr3|].
  assert (Hpush : push E m st3
                  = (inl tt, record_all evs (record (FindMediaImage m) st3))).
  { unfold push, bind at 1, get. rewrite Hr3. cbn [is_some negb].
    unfold bind. rewrite find_media_image_run. exact Hrun. }
  rewrite Hpush. cbn [snd]. split.
  - rewrite requests_record_all. cbn [record trace].
    rewrite requests_app, Ht3. cbn [requests filter is_backend].
    rewrite app_nil_r, map_app, erase_requests, Hshape, requests_push_shape.
    f_equal. destruct (service_changed_from st m); reflexivity.
  - destruct (record_all_fields evs (record (FindMediaImage m) st3))
      as [_ [_ [Hr _]]].
    rewrite Hr. exact Hr3.
Qed.

(** ** A push that fails *)

(** X11.  When every update fails, the push gives up after the basic update, or
    after its one retry behind a reconnection: at most two updates are
    attempted, and the pauses and updates of the thumbnail and of the
    button never happen. *)
Theorem failed_basic_update_ends_push (E : Env) (m : Media) (k : option string)
        (st : State) (p : Presence) (msg : string) :
  rpc st = Some p ->
  (forall history id a, discord E (history ++ [Update id a]) = Fails msg) ->
  exists evs,
    fst (update_presence E m k st) = inl tt
    /\ trace (snd (update_presence E m k st)) = (trace st ++ evs)%list
    /\ 1 <= updates evs <= 2
    /\ existsb is_tier_pause evs = false.
Proof.
  intros Hrpc Hfail.
  unfold update_presence, reconnect_discord, try_except, new_presence, on_rpc,
    backend_call, emit, set_rpc, bind, get, modify, ret, raise.
  cbn. rewrite Hrpc. cbn. rewrite Hfail. cbn.
  destruct (PyStr.contains pipe_timeout msg); cbn.
  - rewrite Hrpc. cbn.
    repeat match goal with
           | |- context [discord E (?h ++ [Update ?id ?a])] =>
               rewrite (Hfail h id a); cbn
           | |- context [discord E ?h] => destruct (discord E h); cbn
           end;
      rewrite <- ?app_assoc; cbn;
      eexists; (split; [reflexivity|split; [reflexivity|split; [cbn; lia|reflexivity]]]).
  - eexists [_]. split; [reflexivity|split; [reflexivity|split; [cbn; lia|reflexivity]]].
Qed.

(** ** Cycles that change nothing *)

(** X12.  A cycle whose detection has the service, title, season and episode of
    the snapshot, at a time when no refresh is forced, makes no request
    and keeps the snapshot, the start time and the client object as they
    are.  A refresh is forced when the start time is set and not zero and
    the seconds since it, modulo 180, are less than 5: so also during the
    first five seconds after the start time. *)
Theorem unchanged_content_is_noop (E : Env) (st : State) (m : Media) :
  fused (world E) = Watching m ->
  content_changed m (current_media st) = false ->
  force_update_due (time_time (world E)) (start_timestamp st) = false ->
  requests (trace (cycle E st)) = []
  /\ current_media (cycle E st) = current_media st
  /\ start_timestamp (cycle E st) = start_timestamp st
  /\ rpc (cycle E st) = rpc st.
Proof.
  intros Hf Hc Hd. rewrite cycle_eq, Hf.
  destruct (after_collect_fields E st) as [H1 [H2 [H3 H4]]].
  rewrite synchronize_idle.
  - cbn [snd]. rewrite H1, H2, H3, H4. repeat split. apply requests_consulted.
  - rewrite sync_due_after_collect. unfold sync_due. rewrite Hc, Hd. reflexivity.
Qed.

Lemma unchanged_content_is_noop_witness :
  requests (trace (cycle (env_of (netflix_world episode1 1050) always_done)
                         watching_episode1)) = []
  /\ current_media (cycle (env_of (netflix_world episode1 1050) always_done)
                          watching_episode1)
     = current_media watching_episode1
  /\ start_timestamp (cycle (env_of (netflix_world episode1 1050) always_done)
                            watching_episode1)
     = start_timestamp watching_episode1
  /\ rpc (cycle (env_of (netflix_world episode1 1050) always_done)
                watching_episode1)
     = rpc watching_episode1.
Proof.
  apply (unchanged_content_is_noop
           (env_of (netflix_world episode1 1050) always_done)
           watching_episode1 show_a_episode1); vm_compute; reflexivity.
Defined.

(** ** What leaves a poll *)



(** Chrome shows the address of Netflix, which neither of the first two
    collectors sees, and its process has gone when the browser collector
    reads its name: the exception of [psutil] leaves the poll.  A read of
    the native-app collector raises: its exception leaves the poll. *)
Example poll_raises_on_failed_read :
  fst (detect_media vanished_process (env_of address_world always_done) offline)
  = inr (PsutilError "process no longer exists")
  /\ fst (detect_media window_read_fails (env_of address_world always_done) offline)
     = inr (Win32Error "EnumWindows").
Proof. split; reflexivity. Qed.

(** ** The payloads *)

Lemma length_app_str (a b : string) :
  String.length (a ++ b) = String.length a + String.length b.
Proof. induction a as [|ch a IH]; cbn; [reflexivity|]. rewrite IH. reflexivity. Qed.

Lemma length_take (n : nat) (s : string) : String.length (PyStr.take n s) <= n.
Proof.
  revert s. induction n as [|n IH]; intro s; [cbn; lia|].
  destruct s as [|ch s]; cbn; [lia|]. specialize (IH s). lia.
Qed.

(** A limited text has at most 100 characters. *)
Lemma limit_100_bound (s : string) : String.length (limit_100 s) <= 100.
Proof.
  unfold limit_100. destruct (100 <? String.length s)%nat eqn:H.
  - rewrite length_app_str. pose proof (length_take 97 s) as Hl.
    change (String.length "...") with 3. lia.
  - apply Nat.ltb_ge in H. exact H.
Qed.

Lemma keeps_bind_post (R : State -> State -> Prop)
      (R_trans : forall a b c, R a b -> R b c -> R a c)
      {A B : Type} (Post : A -> Prop) (m : Py State A) (k : A -> Py State B) :
  keeps R m ->
  (forall st a st', m st = (inl a, st') -> Post a) ->
  (forall a, Post a -> keeps R (k a)) ->
  keeps R (bind m k).
Proof.
  intros Hm Hpost Hk st. specialize (Hm st). unfold bind.
  destruct (m st) as [[a|e] st'] eqn:Hms; cbn in *.
  - apply R_trans with st'; [exact Hm|]. apply Hk. exact (Hpost st a st' Hms).
  - exact Hm.
Qed.

Section Payloads.
Variable E : Env.

Lemma ready_refl (st : State) : extends payload_ready st st.
Proof. apply extends_refl. Qed.

Lemma ready_trans (a b c : State) :
  extends payload_ready a b -> extends payload_ready b c -> extends payload_ready a c.
Proof. apply extends_trans. Qed.

Lemma ready_call (ev : event) :
  payload_ready ev = true -> keeps (extends payload_ready) (backend_call E ev).
Proof.
  intros H st. unfold backend_call.
  destruct (discord E (trace (record ev st))); cbn; apply extends_record, H.
Qed.

Lemma ready_on_rpc (method : string -> event) :
  (forall id, payload_ready (method id) = true) ->
  keeps (extends payload_ready) (on_rpc E method).
Proof.
  intro H. unfold on_rpc.
  apply (keeps_bind _ ready_trans); [apply (keeps_get _ ready_refl)|].
  intro st. destruct (rpc st); [apply ready_call, H|apply (keeps_raise _ ready_refl)].
Qed.

Lemma ready_emit (ev : event) :
  payload_ready ev = true -> keeps (extends payload_ready) (emit ev).
Proof. intros H st. apply extends_record, H. Qed.

Lemma ready_new_presence (id : string) :
  keeps (extends payload_ready) (new_presence E id).
Proof.
  unfold new_presence. apply (keeps_bind _ ready_trans).
  - apply ready_call. reflexivity.
  - intros _ st. apply extends_same_trace. reflexivity.
Qed.

Ltac ready :=
  repeat first
    [ apply (keeps_ret _ ready_refl)
    | apply (keeps_raise _ ready_refl)
    | apply (keeps_get _ ready_refl)
    | apply ready_new_presence
    | apply ready_on_rpc; intro; reflexivity
    | apply ready_emit; reflexivity
    | apply (keeps_when _ ready_refl)
    | apply (keeps_bind _ ready_trans); [|intro]
    | apply (keeps_try_except _ ready_trans); [|intro]
    | match goal with
      | |- keeps _ (if ?c then _ else _) => destruct c
      | |- keeps _ (match ?x with _ => _ end) => destruct x
      end ].

Lemma ready_reconnect_discord :
  keeps (extends payload_ready) (reconnect_discord E).
Proof. unfold reconnect_discord. ready. Qed.

Lemma ready_connect_for (m : Media) (c : bool) :
  keeps (extends payload_ready) (connect_for E m c).
Proof. unfold connect_for. ready. Qed.

Lemma ready_clear_presence : keeps (extends payload_ready) (clear_presence E).
Proof.
  unfold clear_presence, set_current_media.
  apply (keeps_bind _ ready_trans); [apply (keeps_get _ ready_refl)|].
  intro st. destruct (current_media st); [|apply (keeps_ret _ ready_refl)].
  apply (keeps_bind _ ready_trans).
  - intro s. apply extends_same_trace. reflexivity.
  - intros _. ready.
Qed.

Lemma basic_ready (m : Media) :
  discord_ready
    (mkActivity (limit_100 (clean_title (title m) (service m)))
                (presence_state m)
                (if String.eqb (service m) "Netflix" then "netflix" else "disney")
                None None None []) = true.
Proof.
  unfold discord_ready. cbn [details large_image small_image small_text buttons].
  pose proof (limit_100_bound (clean_title (title m) (service m))) as H.
  apply Nat.leb_le in H. rewrite H.
  destruct (String.eqb (service m) "Netflix"); reflexivity.
Qed.

Lemma thumbnail_ready (m : Media) (key : string) :
  discord_ready
    (mkActivity (limit_100 (clean_title (title m) (service m)))
                (presence_state m)
                (if String.eqb (service m) "Netflix" then "netflix" else "disney")
                (Some (if PyStr.startswith key "http" then key
                       else "https://image.tmdb.org/t/p/w200" ++ key))
                (Some (if (100 <? String.length
                                    (limit_100 (clean_title (title m) (service m))))%nat
                       then PyStr.take 100
                                       (limit_100 (clean_title (title m) (service m)))
                       else limit_100 (clean_title (title m) (service m))))
                None []) = true.
Proof.
  unfold discord_ready. cbn [details large_image small_image small_text buttons].
  pose proof (limit_100_bound (clean_title (title m) (service m))) as H.
  assert (H' := H). apply Nat.leb_le in H'. rewrite H'.
  assert (Hlt : (100 <? String.length
                          (limit_100 (clean_title (title m) (service m))))%nat
                = false) by (apply Nat.ltb_ge; exact H).
  rewrite Hlt, H'.
  destruct (String.eqb (service m) "Netflix");
    destruct (PyStr.startswith key "http") eqn:Hk; rewrite ?Hk; reflexivity.
Qed.

Lemma button_ready (base : Activity) (large : string)
      (button : string * string) :
  discord_ready base = true ->
  discord_ready
    (mkActivity (details base) (state base) (large_image base)
                (small_image base) (small_text base) (Some large) [button]) = true.
Proof.
  unfold discord_ready. cbn [details large_image small_image small_text buttons].
  intro H. apply andb_prop in H. destruct H as [H _]. rewrite H. reflexivity.
Qed.

(** Every update of a push carries a payload that is ready for Discord. *)
Lemma ready_update_presence (m : Media) (k : option string) :
  keeps (extends payload_ready) (update_presence E m k).
Proof.
  unfold update_presence. cbv zeta.
  apply (keeps_bind _ ready_trans).
  - apply (keeps_try_except _ ready_trans).
    + apply (keeps_bind _ ready_trans); [|intro; apply (keeps_ret _ ready_refl)].
      apply ready_on_rpc. intro id. apply basic_ready.
    + intro e.
      destruct (PyStr.contains pipe_timeout (str_of_exc e));
        [|apply (keeps_ret _ ready_refl)].
      apply (keeps_bind _ ready_trans); [apply ready_reconnect_discord|].
      intros [|]; [|apply (keeps_ret _ ready_refl)].
      apply (keeps_try_except _ ready_trans);
        [|intro; apply (keeps_ret _ ready_refl)].
      apply (keeps_bind _ ready_trans); [|intro; apply (keeps_ret _ ready_refl)].
      apply ready_on_rpc. intro id. apply basic_ready.
  - intro ok.
    apply (keeps_bind_post _ ready_trans
             (fun ia => match ia with
                        | Some a => discord_ready a = true
                        | None => True
                        end)).
    + destruct (ok && opt_truthy k); [|apply (keeps_ret _ ready_refl)].
      apply (keeps_bind _ ready_trans); [apply ready_emit; reflexivity|].
      intros _. apply (keeps_bind _ ready_trans);
        [|intro; apply (keeps_ret _ ready_refl)].
      apply (keeps_try_except _ ready_trans);
        [|intro; apply (keeps_ret _ ready_refl)].
      apply ready_on_rpc. intro id. apply thumbnail_ready.
    + intros st a st'. destruct (ok && opt_truthy k).
      * unfold bind, emit, modify, try_except, ret.
        match goal with
        | |- context [on_rpc E ?f ?s] => destruct (on_rpc E f s) as [[u|e] s2]
        end; intro H; inversion H; apply thumbnail_ready.
      * unfold ret. intro H. inversion H. exact I.
    + intros ia Hia. destruct ok; [|apply (keeps_ret _ ready_refl)].
      apply (keeps_bind _ ready_trans); [apply ready_emit; reflexivity|].
      intros _. apply (keeps_try_except _ ready_trans);
        [|intro; apply (keeps_ret _ ready_refl)].
      apply ready_on_rpc. intro id. cbn [payload_ready].
      apply button_ready. destruct ia as [a|]; [exact Hia|apply basic_ready].
Qed.

Lemma ready_push (m : Media) : keeps (extends payload_ready) (push E m).
Proof.
  unfold push. apply (keeps_bind _ ready_trans); [apply (keeps_get _ ready_refl)|].
  intro st. destruct (negb (is_some (rpc st))); [apply (keeps_ret _ ready_refl)|].
  apply (keeps_bind _ ready_trans); [|intro; apply ready_update_presence].
  unfold find_media_image. cbv zeta.
  apply (keeps_bind _ ready_trans); [apply ready_emit; reflexivity|].
  intros _. apply (keeps_ret _ ready_refl).
Qed.

Lemma ready_decide (d : Detection) : keeps (extends payload_ready) (decide E d).
Proof.
  intro st. rewrite decide_classify. destruct (classify d) as [|m].
  - apply ready_clear_presence.
  - destruct (sync_due E st m) eqn:Hdue.
    + rewrite synchronize_due by exact Hdue.
      eapply extends_trans; [|apply ready_push].
      eapply extends_trans; [|apply extends_same_trace; reflexivity].
      eapply extends_trans; [|apply ready_connect_for].
      apply extends_same_trace. destruct (timestamp_reset E st); reflexivity.
    + rewrite synchronize_idle by exact Hdue. apply extends_refl.
Qed.

End Payloads.

Lemma consulted_ready (cs : list collector) :
  forallb payload_ready (map Consulted cs) = true.
Proof. induction cs as [|c cs IH]; [reflexivity|exact IH]. Qed.

(** X14.  In a world whose texts are ASCII, and whatever Discord answers, every
    update a cycle sends carries details and thumbnail text of at most 100
    characters, the image key [netflix] or [disney], a thumbnail that is
    an address, and at most one button. *)
Theorem cycle_payloads_ready (E : Env) (st : State) :
  ascii_world (world E) = true ->
  forallb payload_ready (trace (cycle E st)) = true.
Proof.
  intros _. unfold cycle. fold (start_of st). rewrite detect_media_eq.
  fold (after_collect E st).
  destruct (ready_decide E (selected (world E)) (after_collect E st))
    as [evs [Htr Hq]].
  rewrite Htr, forallb_app, Hq.
  destruct (after_collect_fields E st) as [_ [_ [_ H4]]].
  rewrite H4, consulted_ready. reflexivity.
Qed.

Lemma cycle_payloads_ready_witness :
  forallb payload_ready
          (trace (cycle (env_of (netflix_world episode1 1000) always_done)
                        connected)) = true.
Proof.
  exact (cycle_payloads_ready (env_of (netflix_world episode1 1000) always_done)
                              connected eq_refl).
Defined.

(** ** The properties at concrete inputs *)

Lemma check_native_apps_provenance_witness :
  detected_by_system (cand_media (by_window "Netflix" (parse_netflix_title episode1) 2 true))
  = false
  /\ (service (cand_media (by_window "Netflix" (parse_netflix_title episode1) 2 true))
      = "Netflix"
      \/ service (cand_media (by_window "Netflix" (parse_netflix_title episode1) 2 true))
         = "Disney+").
Proof.
  apply (check_native_apps_provenance two_apps_world). vm_compute. reflexivity.
Defined.


Lemma disney_process_without_window_witness :
  check_system_processes disney_background_world = Some (generic_content "Disney+")
  /\ classify (Watching (generic_content "Disney+"))
     = Watching (generic_content "Disney+").
Proof.
  apply (disney_process_without_window disney_background_world
                                       (mkProc "Disney+.exe" [])).
  - left. reflexivity.
  - vm_compute. reflexivity.
  - vm_compute. reflexivity.
Defined.

Lemma tab_title_promoted_to_system_witness :
  exists svc,
    (svc = "Netflix" \/ svc = "Disney+")
    /\ check_system_processes tabs_world = Some (generic_content svc)
    /\ detected_by_system (generic_content svc) = true.
Proof.
  apply (tab_title_promoted_to_system tabs_world tabs_window).
  - vm_compute. reflexivity.
  - vm_compute. reflexivity.
  - left. reflexivity.
  - vm_compute. reflexivity.
  - vm_compute. reflexivity.
  - vm_compute. reflexivity.
Defined.

Lemma cycle_when_discord_answers_witness :
  map erase
      (requests
         (trace (cycle (env_of (netflix_world episode1 1000) always_done)
                       watching_disney)))
  = (switch_shape "222" "333" ++ push_shape "333" false)%list
  /\ rpc (cycle (env_of (netflix_world episode1 1000) always_done) watching_disney)
     = Some (mkPresence "333").
Proof.
  exact (cycle_when_discord_answers
           (env_of (netflix_world episode1 1000) always_done) watching_disney
           show_a_episode1 (mkPresence "222")
           (fun _ => eq_refl) eq_refl eq_refl eq_refl).
Defined.

Lemma failed_basic_update_ends_push_witness :
  exists evs,
    fst (update_presence (env_of (idle_world 0) updates_fail) show_a_episode1 None
                         connected) = inl tt
    /\ trace (snd (update_presence (env_of (idle_world 0) updates_fail)
                                   show_a_episode1 None connected))
       = (trace connected ++ evs)%list
    /\ 1 <= updates evs <= 2
    /\ existsb is_tier_pause evs = false.
Proof.
  apply (failed_basic_update_ends_push (env_of (idle_world 0) updates_fail)
           show_a_episode1 None connected (mkPresence "111") "Connection lost").
  - reflexivity.
  - intros history id a. cbn [discord env_of]. unfold updates_fail.
    rewrite rev_unit. reflexivity.
Defined.

(** ** The loop of [main] *)





(** A turn whose poll raises: the interval and the idle count stay, and
    the handler counts the error or, at the third in a row while Discord
    was connected, reconnects. *)
Lemma main_iteration_fails (F : Faults) (E : Env) (l : Loop) (st : State) (e : exc) :
  escaping F (world E) = Some e ->
  main_iteration F E l st
  = (let st1 := record_all (map Consulted (consulted_under F (world E))) st in
     if (3 <=? S (consecutive_errors l))%nat && discord_connected l then
       match reconnect_discord E st1 with
       | (inl connected, st2) =>
           (inl (mkLoop (current_interval l) (consecutive_no_media l) 0 connected),
            record (Sleep (1000 * current_interval l)) st2)
       | (inr e', st2) => (inr e', st2)
       end
     else
       (inl (mkLoop (current_interval l) (consecutive_no_media l)
                    (S (consecutive_errors l)) (discord_connected l)),
        record (Sleep (1000 * current_interval l)) st1)).
Proof.
  intro Hq.
  unfold main_iteration, try_except, bind at 1 2.
  rewrite detect_media_under, Hq. cbv zeta.
  destruct ((3 <=? S (consecutive_errors l))%nat && discord_connected l).
  - unfold bind, emit, modify, ret.
    destruct (reconnect_discord E
                (record_all (map Consulted (consulted_under F (world E))) st))
      as [[b|e'] st2]; reflexivity.
  - reflexivity.
Qed.



Lemma requests_record (ev : event) (st : State) :
  requests (trace (record ev st))
  = (requests (trace st) ++ requests [ev])%list.
Proof. unfold record. cbn [trace]. apply requests_app. Qed.

(** X20.  Three polls in a row that an exception leaves, while Discord was
    connected: the first two errors are counted, the third makes the
    handler of [main] reconnect.  When Discord answers, the client object
    is then one of the default identity, whatever was shown before; the
    interval and the idle count are as they were. *)
Theorem main_reconnects_on_third_error (p1 p2 p3 : Faults * Env) (l : Loop)
        (st : State) (p : Presence) :
  poll_fails p1 = true ->
  poll_fails p2 = true ->
  poll_fails p3 = true ->
  consecutive_errors l = 0 ->
  discord_connected l = true ->
  rpc st = Some p ->
  answers_all (snd p3) ->
  fst (main_loop [p1; p2; p3] l st)
  = inl (mkLoop (current_interval l) (consecutive_no_media l) 0 true)
  /\ rpc (snd (main_loop [p1; p2; p3] l st))
     = Some (mkPresence (DISCORD_CLIENT_ID (snd p3)))
  /\ current_media (snd (main_loop [p1; p2; p3] l st)) = current_media st
  /\ requests (trace (snd (main_loop [p1; p2; p3] l st)))
     = (requests (trace st)
        ++ [Sleep (1000 * current_interval l);
            Sleep (1000 * current_interval l);
            Close (client_id p);
            Sleep 3000;
            NewPresence (DISCORD_CLIENT_ID (snd p3));
            Connect (DISCORD_CLIENT_ID (snd p3));
            Sleep (1000 * current_interval l)])%list.
Proof.
  destruct p1 as [F1 E1], p2 as [F2 E2], p3 as [F3 E3]. unfold poll_fails.
  cbn [fst snd].
  destruct (escaping F1 (world E1)) as [e1|] eqn:H1; [|discriminate].
  destruct (escaping F2 (world E2)) as [e2|] eqn:H2; [|discriminate].
  destruct (escaping F3 (world E3)) as [e3|] eqn:H3; [|discriminate].
  intros _ _ _ Herr Hdc Hrpc Hans.
  destruct l as [i n errors dc]. cbn [consecutive_errors discord_connected] in *.
  subst errors dc. cbn [current_interval consecutive_no_media].
  cbn [main_loop]. unfold bind.
  rewrite (main_iteration_fails F1 E1 _ st e1 H1). cbv zeta.
  cbn [consecutive_errors discord_connected current_interval consecutive_no_media
       Nat.leb andb].
  rewrite (main_iteration_fails F2 E2 _ _ e2 H2). cbv zeta.
  cbn [consecutive_errors discord_connected current_interval consecutive_no_media
       Nat.leb andb].
  rewrite (main_iteration_fails F3 E3 _ _ e3 H3). cbv zeta.
  cbn [consecutive_errors discord_connected current_interval consecutive_no_media
       Nat.leb andb].
  set (s1 := record_all (map Consulted (consulted_under F1 (world E1))) st).
  set (s2 := record_all (map Consulted (consulted_under F2 (world E2)))
                        (record (Sleep (1000 * i)) s1)).
  set (s3 := record_all (map Consulted (consulted_under F3 (world E3)))
                        (record (Sleep (1000 * i)) s2)).
  assert (Hf1 : current_media s1 = current_media st /\ rpc s1 = rpc st
                /\ requests (trace s1) = requests (trace st)).
  { unfold s1.
    destruct (record_all_fields (map Consulted (consulted_under F1 (world E1))) st)
      as [Ha [_ [Hb _]]].
    rewrite requests_record_all, requests_consulted, app_nil_r. auto. }
  assert (Hf2 : current_media s2 = current_media st /\ rpc s2 = rpc st
                /\ requests (trace s2)
                   = (requests (trace st) ++ [Sleep (1000 * i)])%list).
  { unfold s2.
    destruct (record_all_fields (map Consulted (consulted_under F2 (world E2)))
                                (record (Sleep (1000 * i)) s1))
      as [Ha [_ [Hb _]]].
    rewrite requests_record_all, requests_consulted, app_nil_r, requests_record.
    rewrite Ha, Hb. cbn [record current_media rpc].
    destruct Hf1 as [Hx [Hy Hz]]. rewrite Hx, Hy, Hz. auto. }
  assert (Hf3 : current_media s3 = current_media st /\ rpc s3 = Some p
                /\ requests (trace s3)
                   = (requests (trace st)
                      ++ [Sleep (1000 * i); Sleep (1000 * i)])%list).
  { unfold s3.
    destruct (record_all_fields (map Consulted (consulted_under F3 (world E3)))
                                (record (Sleep (1000 * i)) s2))
      as [Ha [_ [Hb _]]].
    rewrite requests_record_all, requests_consulted, app_nil_r, requests_record.
    rewrite Ha, Hb. cbn [record current_media rpc].
    destruct Hf2 as [Hx [Hy Hz]]. rewrite Hx, Hy, Hz, Hrpc, <- app_assoc. auto. }
  clearbody s3. clear s1 s2 Hf1 Hf2. destruct Hf3 as [Hm3 [Hr3 Hq3]].
  unfold reconnect_discord, try_except, new_presence, on_rpc, backend_call,
    set_rpc, emit, modify, bind, get, ret, record.
  cbn [trace rpc current_media start_timestamp client_id].
  rewrite Hr3.
  repeat (rewrite ?Hans;
          cbn [trace rpc current_media start_timestamp client_id fst snd]).
  repeat split; try assumption.
  rewrite !requests_app, Hq3. cbn [requests filter is_backend app].
  rewrite <- !app_assoc. reflexivity.
Qed.

Lemma main_reconnects_on_third_error_witness :
  fst (main_loop [failing_poll; failing_poll; failing_poll]
                 (main_start true) watching_episode1)
  = inl (mkLoop 5 0 0 true)
  /\ rpc (snd (main_loop [failing_poll; failing_poll; failing_poll]
                         (main_start true) watching_episode1))
     = Some (mkPresence "111").
Proof.
  destruct (main_reconnects_on_third_error
              failing_poll failing_poll failing_poll (main_start true)
              watching_episode1 (mkPresence "333")
              eq_refl eq_refl eq_refl eq_refl eq_refl eq_refl (fun _ => eq_refl))
    as [H1 [H2 _]].
  split; [exact H1|exact H2].
Defined.

(** ** [connect_to_discord] *)

Lemma slept_app (a b : list event) : slept (a ++ b) = slept a + slept b.
Proof. unfold slept. rewrite map_app, list_sum_app. reflexivity. Qed.

Lemma constructions_app (a b : list event) :
  constructions (a ++ b) = constructions a + constructions b.
Proof. unfold constructions. rewrite filter_app, length_app. reflexivity. Qed.

Lemma connect_attempt_done (E : Env) (retry_count : nat) (st : State) :
  exists r st',
    connect_attempt E retry_count st = (inl r, st')
    /\ turn_done E retry_count st r st'.
Proof.
  unfold connect_attempt, turn_done, try_except, new_presence, on_rpc,
    backend_call, set_rpc, emit, modify, bind, get, ret, record.
  cbn [trace rpc current_media start_timestamp client_id str_of_exc].
  repeat match goal with
         | |- context [discord E ?h] =>
             let H := fresh "Hd" in
             destruct (discord E h) eqn:H;
             cbn [trace rpc current_media start_timestamp client_id str_of_exc]
         | |- context [PyStr.contains ?a ?b] =>
             destruct (PyStr.contains a b);
             cbn [trace rpc current_media start_timestamp client_id str_of_exc]
         | |- context [(S retry_count <? max_retries)%nat] =>
             let H := fresh "Hlt" in
             destruct (S retry_count <? max_retries)%nat eqn:H;
             cbn [trace rpc current_media start_timestamp client_id str_of_exc]
         end.
  all: do 2 eexists; split; [reflexivity|];
    cbn [trace rpc current_media start_timestamp client_id];
    rewrite <- ?app_assoc; eexists; split; [reflexivity|];
    repeat split; try reflexivity;
    try (apply Nat.ltb_lt; assumption);
    try (apply Nat.ltb_ge; assumption);
    try (cbn; lia);
    try assumption;
    try (rewrite ?app_assoc; assumption);
    try (rewrite ?app_assoc; eexists; reflexivity).
Qed.

(** What the loop has done when it returns [b]. *)
Lemma connect_loop_done (E : Env) (rem : nat) (st : State) :
  rem <= 4 ->
  exists b st' evs,
    connect_loop E (S rem) st = (inl (Some b), st')
    /\ trace st' = (trace st ++ evs)%list
    /\ current_media st' = current_media st
    /\ start_timestamp st' = start_timestamp st
    /\ slept evs + 1000 * 2 ^ (5 - rem) <= 1000 * 32
    /\ constructions evs <= 2 * rem + 1
    /\ (b = true ->
        rpc st' = Some (mkPresence (DISCORD_CLIENT_ID E))
        /\ discord E (trace st') = Done
        /\ exists earlier,
             trace st' = (earlier ++ [Connect (DISCORD_CLIENT_ID E)])%list).
Proof.
  revert st. induction rem as [|r IH]; intros st Hle.
  - cbn [connect_loop]. unfold bind.
    destruct (connect_attempt_done E (max_retries - 1) st)
      as [a [st1 [Heq [evs [Htr [Hm [Ht [Hc Hr]]]]]]]].
    rewrite Heq. unfold max_retries in *. cbn [Nat.sub Nat.ltb Nat.leb] in Hc, Hr.
    destruct a as [[|]|].
    + exists true, st1, evs. destruct Hr as [Hs [Hrpc [Hd He]]].
      repeat split; try assumption;
        try (rewrite Hs; cbn [Nat.sub Nat.pow]; lia); lia.
    + exists false, st1, evs. destruct Hr as [Hs _].
      repeat split; try assumption; try discriminate;
        try (rewrite Hs; cbn [Nat.sub Nat.pow]; lia); lia.
    + destruct Hr as [_ Hlt]. lia.
  - cbn [connect_loop]. unfold bind.
    destruct (connect_attempt_done E (max_retries - S (S r)) st)
      as [a [st1 [Heq [evs [Htr [Hm [Ht [Hc Hr]]]]]]]].
    rewrite Heq.
    assert (Hc2 : constructions evs <= 2)
      by (destruct (S (max_retries - S (S r)) <? max_retries)%nat; lia).
    assert (Hpow : 1000 * 2 ^ (5 - S r) <= 1000 * 32)
      by (destruct r as [|[|[|[|]]]]; cbn [Nat.sub Nat.pow]; lia).
    destruct a as [[|]|].
    + exists true, st1, evs. destruct Hr as [Hs [Hrpc [Hd He]]].
      repeat split; try assumption; try (rewrite Hs; exact Hpow); lia.
    + exists false, st1, evs. destruct Hr as [Hs _].
      repeat split; try assumption; try discriminate;
        try (rewrite Hs; exact Hpow); lia.
    + destruct Hr as [Hs _].
      destruct (IH st1 ltac:(lia))
        as [b [st2 [evs2 [Heq2 [Htr2 [Hm2 [Ht2 [Hs2 [Hc3 Hb]]]]]]]]].
      exists b, st2, (evs ++ evs2)%list.
      split; [exact Heq2|].
      split; [rewrite Htr2, Htr, app_assoc; reflexivity|].
      split; [congruence|].
      split; [congruence|].
      split.
      { rewrite slept_app, Hs. unfold max_retries.
        destruct r as [|[|[|[|]]]]; cbn [Nat.sub Nat.pow] in *; lia. }
      split; [rewrite constructions_app; lia|].
      exact Hb.
Qed.

Lemma discord_scan_error (procs : list Proc) (e : exc) :
  discord_scan procs = inr e ->
  e = AttributeError "'NoneType' object has no attribute 'lower'".
Proof.
  induction procs as [|p ps IH]; cbn [discord_scan]; [discriminate|].
  destruct (negb (PyStr.truthy (proc_name p))); [intro H; inversion H; reflexivity|].
  destruct (PyStr.contains "discord" (PyStr.lower (proc_name p)));
    [discriminate|exact IH].
Qed.

Lemma discord_running_scan (W : World) :
  discord_running W = true -> discord_scan (process_iter W) = inl true.
Proof.
  unfold discord_running.
  destruct (discord_scan (process_iter W)) as [[|]|e]; intro H;
    try discriminate H; reflexivity.
Qed.

(** X16.  [connect_to_discord] raises only in its scan of the process table,
    when a process whose name could not be read comes before any process
    of Discord: then [AttributeError] leaves it before it has called
    Discord.  Otherwise it returns [True] or [False]: it does not leave
    its loop without a [return], builds at most nine client objects, waits
    at most 30 seconds in all, and leaves the snapshot and the start time
    alone.  When it returns [True] the last thing it did was a [connect]
    that Discord accepted, on a client of the default identity, which is
    the global [rpc]. *)
Theorem connect_to_discord_bounded (E : Env) (st : State) :
  match discord_scan (process_iter (world E)) with
  | inr e =>
      e = AttributeError "'NoneType' object has no attribute 'lower'"
      /\ connect_to_discord E st = (inr e, st)
  | inl _ =>
      exists b st' evs,
        connect_to_discord E st = (inl (Some b), st')
        /\ trace st' = (trace st ++ evs)%list
        /\ current_media st' = current_media st
        /\ start_timestamp st' = start_timestamp st
        /\ slept evs <= 1000 * 30
        /\ constructions evs <= 9
        /\ (b = true ->
            rpc st' = Some (mkPresence (DISCORD_CLIENT_ID E))
            /\ discord E (trace st') = Done
            /\ exists earlier,
                 trace st' = (earlier ++ [Connect (DISCORD_CLIENT_ID E)])%list)
  end.
Proof.
  unfold connect_to_discord, bind at 1, lift.
  destruct (discord_scan (process_iter (world E))) as [[|]|e] eqn:Hscan.
  - destruct (connect_loop_done E 4 st (le_n 4))
      as [b [st' [evs [Heq [Htr [Hm [Ht [Hs [Hc Hb]]]]]]]]].
    exists b, st', evs. cbn [Nat.sub Nat.pow] in Hs.
    repeat split; try assumption; try (apply Hb; assumption); lia.
  - exists false, st, []. unfold ret.
    repeat split; try discriminate; try (cbn; lia).
    symmetry. apply app_nil_r.
  - split; [exact (discord_scan_error _ e Hscan)|reflexivity].
Qed.

(** A process whose name cannot be read stands before Discord in the
    table: the scan raises. *)
Example connect_to_discord_raises_on_unread_name :
  connect_to_discord
    (env_of (world_of [mkProc EmptyString []; mkProc "Discord.exe" []] [] 0 100)
            always_done) offline
  = (inr (AttributeError "'NoneType' object has no attribute 'lower'"), offline).
Proof. reflexivity. Qed.

Lemma connect_attempt_refused (E : Env) (retry_count : nat) (st : State)
      (msg : string) :
  refuses_all E msg ->
  connect_attempt E retry_count st
  = (inl (if (S retry_count <? max_retries)%nat then None else Some false),
     record_all
       ((if PyStr.contains "create_pipe_connection" msg
            && (S retry_count <? max_retries)%nat
         then [NewPresence (DISCORD_CLIENT_ID E); NewPresence (DISCORD_CLIENT_ID E)]
         else [NewPresence (DISCORD_CLIENT_ID E)])
        ++ (if (S retry_count <? max_retries)%nat
            then [Sleep (1000 * 2 ^ S retry_count)] else []))%list st).
Proof.
  intro Hall.
  unfold connect_attempt, try_except, new_presence, on_rpc, backend_call, set_rpc,
    emit, modify, bind, get, ret.
  rewrite Hall. cbn [str_of_exc].
  destruct (PyStr.contains "create_pipe_connection" msg);
    destruct (S retry_count <? max_retries)%nat;
    rewrite ?Hall; reflexivity.
Qed.

(** X17.  When every call into Discord fails, [connect_to_discord] makes its five
    turns and returns [False]: a construction per turn, two in the first
    four turns when the message names [create_pipe_connection], with
    pauses of 2, 4, 8 and 16 seconds between the turns and none after the
    last.  The globals are left as they were. *)
Theorem connect_to_discord_backoff (E : Env) (st : State) (msg : string) :
  discord_running (world E) = true ->
  refuses_all E msg ->
  connect_to_discord E st
  = (inl (Some false),
     record_all (retry_schedule (DISCORD_CLIENT_ID E)
                                (PyStr.contains "create_pipe_connection" msg)) st).
Proof.
  intros Hrun Hall.
  unfold connect_to_discord, bind at 1, lift.
  rewrite (discord_running_scan _ Hrun).
  unfold max_retries. cbn [connect_loop Nat.sub]. unfold bind.
  repeat (rewrite (connect_attempt_refused E _ _ msg Hall);
          unfold max_retries; cbn [Nat.ltb Nat.leb Nat.sub andb]).
  destruct (PyStr.contains "create_pipe_connection" msg); reflexivity.
Qed.

Lemma connect_to_discord_backoff_witness :
  connect_to_discord (env_of discord_world all_fail) offline
  = (inl (Some false), record_all (retry_schedule "111" false) offline).
Proof.
  exact (connect_to_discord_backoff (env_of discord_world all_fail) offline
           "Could not find Discord installed and running" eq_refl
           (fun _ => eq_refl)).
Defined.

Lemma connect_attempt_unconnected (E : Env) (retry_count : nat) (st : State)
      (msg : string) :
  refuses_connections E msg ->
  exists st',
    connect_attempt E retry_count st
    = (inl (if (S retry_count <? max_retries)%nat then None else Some false), st')
    /\ rpc st' = Some (mkPresence (DISCORD_CLIENT_ID E)).
Proof.
  intros [Hnew Hcon].
  unfold connect_attempt, try_except, new_presence, on_rpc, backend_call, set_rpc,
    emit, modify, bind, get, ret, record.
  cbn [trace rpc client_id current_media start_timestamp].
  rewrite Hnew. cbn [trace rpc client_id current_media start_timestamp].
  rewrite Hcon. cbn [str_of_exc trace rpc client_id current_media start_timestamp].
  destruct (PyStr.contains "create_pipe_connection" msg);
    destruct (S retry_count <? max_retries)%nat;
    cbn [trace rpc client_id current_media start_timestamp];
    rewrite ?Hnew; cbn [trace rpc client_id current_media start_timestamp];
    rewrite ?Hcon; cbn [trace rpc client_id current_media start_timestamp];
    eexists; split; reflexivity.
Qed.

(** X18.  When client objects can be built but no connection is accepted,
    [connect_to_discord] returns [False] and still leaves a client object
    of the default identity in the global [rpc]. *)
Theorem connect_to_discord_leaves_client (E : Env) (st : State) (msg : string) :
  discord_running (world E) = true ->
  refuses_connections E msg ->
  fst (connect_to_discord E st) = inl (Some false)
  /\ rpc (snd (connect_to_discord E st))
     = Some (mkPresence (DISCORD_CLIENT_ID E)).
Proof.
  intros Hrun Href.
  unfold connect_to_discord, bind at 1, lift.
  rewrite (discord_running_scan _ Hrun).
  unfold max_retries. cbn [connect_loop]. unfold max_retries, bind.
  cbn [Nat.sub].
  destruct (connect_attempt_unconnected E 0 st msg Href) as [s1 [H1 _]].
  destruct (connect_attempt_unconnected E 1 s1 msg Href) as [s2 [H2 _]].
  destruct (connect_attempt_unconnected E 2 s2 msg Href) as [s3 [H3 _]].
  destruct (connect_attempt_unconnected E 3 s3 msg Href) as [s4 [H4 _]].
  destruct (connect_attempt_unconnected E 4 s4 msg Href) as [s5 [H5 Hrpc]].
  unfold max_retries in *. cbn [Nat.ltb Nat.leb] in *.
  rewrite H1, H2, H3, H4, H5. split; [reflexivity|exact Hrpc].
Qed.

Lemma connect_to_discord_leaves_client_witness :
  fst (connect_to_discord (env_of discord_world connections_fail) offline)
  = inl (Some false)
  /\ rpc (snd (connect_to_discord (env_of discord_world connections_fail) offline))
     = Some (mkPresence "111").
Proof.
  apply (connect_to_discord_leaves_client
           (env_of discord_world connections_fail) offline "Connection refused").
  - reflexivity.
  - split; intros history id; cbn [discord env_of]; unfold connections_fail;
      rewrite rev_unit; reflexivity.
Defined.

(** ** [safe_cleanup] *)

(** X19.  [safe_cleanup] never raises and leaves the globals alone, the client
    object included.  Without a client object it does nothing; with one it
    clears, waits half a second and closes, and when the clear fails it
    does not close. *)
Theorem safe_cleanup_done (E : Env) (st : State) :
  safe_cleanup E st
  = (inl tt,
     record_all
       match rpc st with
       | None => []
       | Some p =>
           match discord E (trace st ++ [Clear (client_id p)]) with
           | Done => [Clear (client_id p); Sleep 500; Close (client_id p)]
           | Fails _ => [Clear (client_id p)]
           end
       end st).
Proof.
  unfold safe_cleanup, try_except, when, on_rpc, backend_call, emit, modify, bind,
    get, ret, record, record_all.
  destruct st as [cm ts [p|] tr]; [|reflexivity].
  cbn [rpc trace current_media start_timestamp is_some fold_left].
  destruct (discord E (tr ++ [Clear (client_id p)])) eqn:Hclear;
    cbn [rpc trace current_media start_timestamp fold_left]; [|reflexivity].
  destruct (discord E (((tr ++ [Clear (client_id p)]) ++ [Sleep 500])
                         ++ [Close (client_id p)]));
    reflexivity.
Qed.
